(** * SmManager: the catalog and storage-lifecycle manager of RMDB

    A shallow embedding of [src/rmdb/src/system/sm_manager.cpp].

    The manager keeps the schema of the open database ([db_]) and two
    registries of open handles ([fhs_], [ihs_]); it drives the record store
    ([rm_manager_]), the index store ([ix_manager_]), the disk manager and the
    operating system.  Every member function becomes a computation in a state
    and exception monad over a [World]: the manager's fields, the part of the
    file system the code touches, and the trace of the calls it makes to its
    collaborators. *)

From Stdlib Require Import ZArith String List.
From stdpp Require Import gmap strings list fin_maps sorting.

Local Open Scope Z_scope.

(** ** Machine integers

    [int] is a 32-bit signed integer.  Addition is written with the
    two's-complement wrap-around that the targeted compilers produce. *)

Definition INT_MIN : Z := - 2 ^ 31.
Definition INT_MAX : Z := 2 ^ 31 - 1.

Definition wrap_int (z : Z) : Z := (z + 2 ^ 31) mod 2 ^ 32 - 2 ^ 31.

Definition int_add (a b : Z) : Z := wrap_int (a + b).

Definition in_int_range (z : Z) : Prop := INT_MIN <= z <= INT_MAX.

(** ** Data model (the structs the manager builds and reads) *)

(** The scalar type tag of a column: the value of the [ColType] enum. *)
Definition ColType : Type := Z.

Module ColDef.
Record t : Type := mk { name : string; type : ColType; len : Z }.
End ColDef.

Module ColMeta.
Record t : Type := mk {
    tab_name : string;
    name : string;
    type : ColType;
    len : Z;
    offset : Z;
    index : bool
}.
End ColMeta.

Module IndexMeta.
Record t : Type := mk {
    tab_name : string;
    col_tot_len : Z;
    col_num : Z;
    cols : list ColMeta.t
}.
End IndexMeta.

Module TabMeta.
Record t : Type := mk {
    name : string;
    cols : list ColMeta.t;
    indexes : list IndexMeta.t
}.
End TabMeta.

Module DbMeta.
Record t : Type := mk {
    name_ : string;
    tabs_ : gmap string TabMeta.t
}.
End DbMeta.

Global Instance ColMeta_eq_dec : EqDecision ColMeta.t.
Proof. solve_decision. Defined.
Global Instance IndexMeta_eq_dec : EqDecision IndexMeta.t.
Proof. solve_decision. Defined.
Global Instance TabMeta_eq_dec : EqDecision TabMeta.t.
Proof. solve_decision. Defined.
Global Instance DbMeta_eq_dec : EqDecision DbMeta.t.
Proof. solve_decision. Defined.

(** A path is the list of its components below the directory the process
    started in. *)
Definition Path : Type := list string.

(** Open handles are opaque resources; the model remembers the file each one
    was opened on.  A [std::unique_ptr] to a handle is an [option]: [None] is
    the null pointer. *)
Inductive RmFileHandle : Type := RmFH (file : Path).
Inductive IxIndexHandle : Type := IxIH (file : Path).

Global Instance RmFileHandle_eq_dec : EqDecision RmFileHandle.
Proof. solve_decision. Defined.
Global Instance IxIndexHandle_eq_dec : EqDecision IxIndexHandle.
Proof. solve_decision. Defined.

(** What a file holds, as far as the manager can tell. *)
Inductive File : Type :=
  | MetaFile (m : DbMeta.t)
  | RecordFile (record_size : Z)
  | IndexFile (cols : list ColMeta.t)
  | TextFile (lines : list string)
  | EmptyFile.

(** The observable calls of the manager, in the order it makes them: calls to
    the record store, the index store, the disk manager and the shell, and the
    lines it prints. *)
Inductive Event : Type :=
  | RmCreateFile (name : string) (record_size : Z)
  | RmOpenFile (name : string)
  | RmCloseFile (h : option RmFileHandle)
  | RmDestroyFile (name : string)
  | IxCreateIndex (tab_name : string) (cols : list ColMeta.t)
  | IxOpenIndex (tab_name : string) (cols : list ColMeta.t)
  | IxCloseIndex (h : option IxIndexHandle)
  | IxDestroyIndex (tab_name : string) (col_names : list string)
  | DiskCreateFile (name : string)
  | System (cmd : string)
  | Cout (line : string)
  | PrintSeparator
  | PrintRecord (row : list string).

Inductive Error : Type :=
  | DatabaseExistsError (db_name : string)
  | DatabaseNotFoundError (db_name : string)
  | UnixError
  | TableExistsError (tab_name : string)
  | TableNotFoundError (tab_name : string)
  | ColumnNotFoundError (col_name : string)
  | IndexExistsError (tab_name : string) (col_names : list string)
  | IndexNotFoundError (tab_name : string) (col_names : list string)
  | MetaFormatError
  | StoreError (call : Event).

(** ** The world an operation runs in *)

Record World : Type := mkWorld {
  (* SmManager's fields *)
  db_ : DbMeta.t;
  fhs_ : gmap string (option RmFileHandle);
  ihs_ : gmap string (option IxIndexHandle);
  (* the process and the file system *)
  cwd : Path;
  dirs : gset Path;
  files : gmap Path File;
  (* calls made so far, oldest first *)
  trace : list Event
}.

Definition set_db_ (f : DbMeta.t → DbMeta.t) (w : World) : World :=
  mkWorld (f (db_ w)) (fhs_ w) (ihs_ w) (cwd w) (dirs w) (files w) (trace w).
Definition set_fhs_ (f : gmap string (option RmFileHandle) → gmap string (option RmFileHandle))
    (w : World) : World :=
  mkWorld (db_ w) (f (fhs_ w)) (ihs_ w) (cwd w) (dirs w) (files w) (trace w).
Definition set_ihs_ (f : gmap string (option IxIndexHandle) → gmap string (option IxIndexHandle))
    (w : World) : World :=
  mkWorld (db_ w) (fhs_ w) (f (ihs_ w)) (cwd w) (dirs w) (files w) (trace w).
Definition set_cwd (p : Path) (w : World) : World :=
  mkWorld (db_ w) (fhs_ w) (ihs_ w) p (dirs w) (files w) (trace w).
Definition set_dirs (f : gset Path → gset Path) (w : World) : World :=
  mkWorld (db_ w) (fhs_ w) (ihs_ w) (cwd w) (f (dirs w)) (files w) (trace w).
Definition set_files (f : gmap Path File → gmap Path File) (w : World) : World :=
  mkWorld (db_ w) (fhs_ w) (ihs_ w) (cwd w) (dirs w) (f (files w)) (trace w).
Definition log (ev : Event) (w : World) : World :=
  mkWorld (db_ w) (fhs_ w) (ihs_ w) (cwd w) (dirs w) (files w) (trace w ++ [ev]).

Definition set_tabs_ (f : gmap string TabMeta.t → gmap string TabMeta.t) : World → World :=
  set_db_ (λ db, DbMeta.mk (DbMeta.name_ db) (f (DbMeta.tabs_ db))).

(** ** State and exception monad

    A C++ member function either returns or throws; in both cases the
    mutations made up to that point stay. *)

Inductive Result (A : Type) : Type :=
  | Ok (a : A) (w : World)
  | Throw (e : Error) (w : World).
Arguments Ok {A} a w.
Arguments Throw {A} e w.

Definition M (A : Type) : Type := World → Result A.

Global Instance M_ret : MRet M := λ A a w, Ok a w.
Global Instance M_bind : MBind M := λ A B f m w,
  match m w with
  | Ok a w' => f a w'
  | Throw e w' => Throw e w'
  end.

Definition throw {A} (e : Error) : M A := λ w, Throw e w.
Definition gets {A} (f : World → A) : M A := λ w, Ok (f w) w.
Definition modify (f : World → World) : M unit := λ w, Ok tt (f w).

(** [try { body } catch (std::exception &e) { handler }]: every error of the
    model is a [std::exception]. *)
Definition try_catch {A} (body : M A) (handler : Error → M A) : M A := λ w,
  match body w with
  | Ok a w' => Ok a w'
  | Throw e w' => handler e w'
  end.

(** A range-based [for] / [std::for_each] whose body may throw. *)
Fixpoint for_each {A} (l : list A) (body : A → M unit) : M unit :=
  match l with
  | [] => mret tt
  | x :: l' => body x ;; for_each l' body
  end.

Definition final_world {A} (r : Result A) : World :=
  match r with Ok _ w => w | Throw _ w => w end.

Definition returns {A} (r : Result A) : bool :=
  match r with Ok _ _ => true | Throw _ _ => false end.

(** ** Containers

    [std::map::operator[]] and [std::unordered_map::operator[]] insert a
    value-initialised entry when the key is absent; [emplace] keeps the entry
    that is already there. *)

Definition emplace {V} (k : string) (v : V) (m : gmap string V) : gmap string V :=
  match m !! k with
  | Some _ => m
  | None => <[k := v]> m
  end.

Definition subscript {V} (dflt : V) (k : string) (m : gmap string V) : V * gmap string V :=
  match m !! k with
  | Some v => (v, m)
  | None => (dflt, <[k := dflt]> m)
  end.

(** [fhs_[k].get()], [ihs_[k].get()] and [db_.tabs_[k]]. *)
Definition fhs_subscript (k : string) : M (option RmFileHandle) := λ w,
  let '(h, m) := subscript None k (fhs_ w) in Ok h (set_fhs_ (λ _, m) w).
Definition ihs_subscript (k : string) : M (option IxIndexHandle) := λ w,
  let '(h, m) := subscript None k (ihs_ w) in Ok h (set_ihs_ (λ _, m) w).
Definition default_TabMeta : TabMeta.t := TabMeta.mk EmptyString [] [].
Definition tabs_subscript (k : string) : M TabMeta.t := λ w,
  let '(t, m) := subscript default_TabMeta k (DbMeta.tabs_ (db_ w)) in
  Ok t (set_tabs_ (λ _, m) w).

(** [std::map] iterates in the order of its keys. *)
Definition key_le {V} (a b : string * V) : Prop := String.leb a.1 b.1.

Definition in_key_order {V} (m : gmap string V) : list (string * V) :=
  merge_sort key_le (map_to_list m).

(** ** What the manager is linked against

    Constants of [common/config.h], functions of the index store and of the
    printer, and the behaviour of the collaborators that the manager cannot
    influence: which of its calls they refuse (by throwing), and what the
    metadata reader leaves in [db_] when there is nothing it can parse. *)

Record Externals : Type := mkExternals {
  DB_META_NAME : string;
  LOG_FILE_NAME : string;
  (* IxManager::get_index_name on a list of column names *)
  get_index_name : string → list string → string;
  coltype2str : ColType → string;
  (* std::exception::what *)
  what : Error → string;
  (* the call [ev], made in world [w], throws (for [system]: returns < 0) *)
  refuses : World → Event → bool;
  (* [ifs >> db_] without a parsable metadata file: [None] when it throws,
     [Some m] when it returns and leaves [m] in [db_] *)
  broken_meta : DbMeta.t → option DbMeta.t
}.

Section SmManager.

Context (E : Externals).

(** *** Schema lookups ([system/sm_meta.h]) *)

(** Modelled from the spec: [DbMeta::is_table] is not among the sources; the
    schema is a mapping from table name to TabMeta with unique keys, and a
    table exists when its name is a key. *)
Definition is_table (db : DbMeta.t) (tab_name : string) : bool :=
  bool_decide (is_Some (DbMeta.tabs_ db !! tab_name)).

(** Modelled from the spec: [DbMeta::get_table] is not among the sources;
    [desc_table], which only calls it, fails with TableNotFound if the name is
    absent from DbMeta. *)
Definition get_table (tab_name : string) : M TabMeta.t := λ w,
  match DbMeta.tabs_ (db_ w) !! tab_name with
  | Some tab => Ok tab w
  | None => Throw (TableNotFoundError tab_name) w
  end.

(** Modelled from the spec: [TabMeta::get_col] is not among the sources;
    column names are unique within a table and resolving a name that does not
    exist on the table is a column-lookup failure surfaced to the caller. *)
Definition get_col (tab : TabMeta.t) (col_name : string) : M ColMeta.t :=
  match list_find (λ c, ColMeta.name c = col_name) (TabMeta.cols tab) with
  | Some (_, c) => mret c
  | None => throw (ColumnNotFoundError col_name)
  end.

Definition names_of (cols : list ColMeta.t) : list string := ColMeta.name <$> cols.

(** Modelled from the spec: [TabMeta::get_index_meta] is not among the
    sources; an index is identified within its table by its ordered list of
    column names.  The result is the position of the first such index in
    [indexes] (the iterator); the lookup raises an error when there is none. *)
Definition get_index_meta (tab : TabMeta.t) (col_names : list string) : M nat :=
  match list_find (λ ix, names_of (IndexMeta.cols ix) = col_names) (TabMeta.indexes tab) with
  | Some (pos, _) => mret pos
  | None => throw (IndexNotFoundError (TabMeta.name tab) col_names)
  end.

(** Modelled from the spec: the overload of [IxManager::get_index_name] on
    column metadata is not among the sources; the identity of an index is a
    pure function of the table name and the ordered column names. *)
Definition get_index_name_cols (tab_name : string) (cols : list ColMeta.t) : string :=
  get_index_name E tab_name (names_of cols).

(** *** The operating system *)

(** A name that [stat], [chdir] and the shell all read as one entry of the
    current directory: it is not empty, is neither [.] nor [..], is at most
    255 bytes long, does not start with [-], and is made of letters, digits,
    [_], [-] and [.] only. *)
Definition plain_char (c : Ascii.ascii) : bool :=
  let n := Ascii.nat_of_ascii c in
  ((48 <=? n) && (n <=? 57) || (65 <=? n) && (n <=? 90) || (97 <=? n) && (n <=? 122)
   || (n =? 95) || (n =? 45) || (n =? 46))%nat.

Definition plain_component (name : string) : bool :=
  match name with
  | EmptyString => false
  | String c _ =>
      negb (Ascii.nat_of_ascii c =? 45)%nat &&
      forallb plain_char (list_ascii_of_string name) &&
      bool_decide (name ≠ ".") && bool_decide (name ≠ "..") &&
      (String.length name <=? 255)%nat
  end.

(** A name is resolved against the current directory.  The model follows the
    names that are one path component ([plain_component]) and [..], the
    parent; what [stat], [chdir] and the shell make of any other string
    (several components, [.], the empty string, blanks) is outside it, and
    the statements about database names are made for plain components. *)
Definition resolve (from : Path) (name : string) : Path :=
  if decide (name = "..") then removelast from else from ++ [name].

(** [chdir(name) < 0] is [false] exactly when the directory exists. *)
Definition chdir (name : string) : M bool := λ w,
  let target := resolve (cwd w) name in
  if decide (target ∈ dirs w) then Ok true (set_cwd target w) else Ok false w.

(** [system(cmd)]: the call is refused when [system] returns a negative
    value; otherwise the command has run, with the effect [eff] on the file
    system. *)
Definition system (cmd : string) (eff : World → World) : M bool := λ w,
  let w' := log (System cmd) w in
  if refuses E w (System cmd) then Ok false w' else Ok true (eff w').

(** [mkdir db_name], for a name that the shell reads as one word and one
    path component: nothing is made when the name is taken or the current
    directory is no longer there. *)
Definition mkdir_effect (db_name : string) (w : World) : World :=
  let target := resolve (cwd w) db_name in
  if decide (target ∈ dirs w ∨ is_Some (files w !! target) ∨ cwd w ∉ dirs w) then w
  else set_dirs (λ ds, {[target]} ∪ ds) w.

Definition rm_r_effect (db_name : string) (w : World) : World :=
  let target := resolve (cwd w) db_name in
  set_files (filter (λ kv, ¬ target `prefix_of` kv.1))
    (set_dirs (filter (λ p, ¬ target `prefix_of` p)) w).

(** [std::ofstream ofs(name); ofs << content]: truncate and write, in the
    current directory. *)
Definition ofstream_write (name : string) (content : File) : M unit :=
  modify (λ w, set_files <[cwd w ++ [name] := content]> w).

(** Modelled from the spec: [operator>>] on DbMeta is not among the sources;
    the codec reproduces the schema that was written.  Without a parsable
    metadata file the reader behaves as [broken_meta] says. *)
Definition ifstream_read_db_ : M unit := λ w,
  match files w !! (cwd w ++ [DB_META_NAME E]) with
  | Some (MetaFile m) => Ok tt (set_db_ (λ _, m) w)
  | _ =>
      match broken_meta E (db_ w) with
      | Some m => Ok tt (set_db_ (λ _, m) w)
      | None => Throw MetaFormatError w
      end
  end.

Definition cout (line : string) : M unit := modify (log (Cout line)).

(** *** Collaborators

    A call is recorded, then either refused (it throws, and the exception
    leaves the manager's function) or carried out. *)
Definition call (ev : Event) (eff : World → World) : M unit := λ w,
  let w' := log ev w in
  if refuses E w ev then Throw (StoreError ev) w' else Ok tt (eff w').

(** Modelled from the spec: the record store is not among the sources.  It
    offers create_file(name, record_size), open_file(name), close_file(handle)
    and destroy_file(name) on the record file of a table, which lies in the
    database directory under the table's name. *)
Definition rm_create_file (name : string) (record_size : Z) : M unit :=
  call (RmCreateFile name record_size)
       (λ w, set_files <[cwd w ++ [name] := RecordFile record_size]> w).

Definition rm_open_file (name : string) : M (option RmFileHandle) :=
  call (RmOpenFile name) id ;; gets (λ w, Some (RmFH (cwd w ++ [name]))).

Definition rm_close_file (h : option RmFileHandle) : M unit :=
  call (RmCloseFile h) id.

Definition rm_destroy_file (name : string) : M unit :=
  call (RmDestroyFile name) (λ w, set_files (delete (cwd w ++ [name])) w).

(** Modelled from the spec: the index store is not among the sources.  It
    offers exists(table, cols), create_index(table, col_metas),
    open_index(table, col_metas), close_index(handle) and
    destroy_index(table, cols) on the index file, whose name in the database
    directory is the identity of the index. *)
Definition ix_exists (tab_name : string) (col_names : list string) : M bool :=
  gets (λ w, bool_decide (is_Some (files w !! (cwd w ++ [get_index_name E tab_name col_names])))).

Definition ix_create_index (tab_name : string) (cols : list ColMeta.t) : M unit :=
  call (IxCreateIndex tab_name cols)
       (λ w, set_files <[cwd w ++ [get_index_name_cols tab_name cols] := IndexFile cols]> w).

Definition ix_open_index (tab_name : string) (cols : list ColMeta.t) : M (option IxIndexHandle) :=
  call (IxOpenIndex tab_name cols) id ;;
  gets (λ w, Some (IxIH (cwd w ++ [get_index_name_cols tab_name cols]))).

Definition ix_close_index (h : option IxIndexHandle) : M unit :=
  call (IxCloseIndex h) id.

Definition ix_destroy_index (tab_name : string) (col_names : list string) : M unit :=
  call (IxDestroyIndex tab_name col_names)
       (λ w, set_files (delete (cwd w ++ [get_index_name E tab_name col_names])) w).

Definition ix_destroy_index_cols (tab_name : string) (cols : list ColMeta.t) : M unit :=
  ix_destroy_index tab_name (names_of cols).

(** Modelled from the spec: the disk manager is not among the sources; its
    create_file makes an empty file in the current directory. *)
Definition disk_create_file (name : string) : M unit :=
  call (DiskCreateFile name) (λ w, set_files <[cwd w ++ [name] := EmptyFile]> w).

(** Modelled from the spec: RecordPrinter is not among the sources; the
    output is a tabular rendering, one record per row. *)
Definition print_separator : M unit := modify (log PrintSeparator).
Definition print_record (row : list string) : M unit := modify (log (PrintRecord row)).

(** ** SmManager's member functions *)

Definition is_dir (db_name : string) : M bool :=
  gets (λ w, bool_decide (resolve (cwd w) db_name ∈ dirs w)).

Definition create_db (db_name : string) : M unit :=
  d ← is_dir db_name;
  if d : bool then throw (DatabaseExistsError db_name) else
  let cmd := "mkdir " +:+ db_name in
  ok ← system cmd (mkdir_effect db_name);
  if negb ok then throw UnixError else
  ok ← chdir db_name;
  if negb ok then throw UnixError else
  let new_db := DbMeta.mk db_name ∅ in
  ofstream_write (DB_META_NAME E) (MetaFile new_db) ;;
  disk_create_file (LOG_FILE_NAME E) ;;
  ok ← chdir "..";
  if negb ok then throw UnixError else mret tt.

Definition drop_db (db_name : string) : M unit :=
  d ← is_dir db_name;
  if negb d then throw (DatabaseNotFoundError db_name) else
  let cmd := "rm -r " +:+ db_name in
  ok ← system cmd (rm_r_effect db_name);
  if negb ok then throw UnixError else mret tt.

(** The bodies of the two loops of [open_db]: per index, and per table. *)
Definition open_db_index (tab_name : string) (index : IndexMeta.t) : M unit :=
  let index_name := get_index_name_cols tab_name (IndexMeta.cols index) in
  ih ← ix_open_index tab_name (IndexMeta.cols index);
  modify (set_ihs_ (emplace index_name ih)).

Definition open_db_table (entry_ : string * TabMeta.t) : M unit :=
  let tab_name := entry_.1 in
  h ← rm_open_file tab_name;
  fhs_subscript tab_name ;;
  modify (set_fhs_ <[tab_name := h]>) ;;
  tab ← tabs_subscript tab_name;
  for_each (TabMeta.indexes tab) (open_db_index tab_name).

Definition open_db_body (db_name : string) : M unit :=
  chdir_result ← chdir db_name;
  if negb chdir_result then throw UnixError else
  ifstream_read_db_ ;;
  tabs ← gets (λ w, DbMeta.tabs_ (db_ w));
  for_each (in_key_order tabs) open_db_table.

Definition open_db (db_name : string) : M unit :=
  try_catch (open_db_body db_name) (λ e, cout (what E e)).

Definition flush_meta : M unit :=
  db ← gets db_;
  ofstream_write (DB_META_NAME E) (MetaFile db).

(** The bodies of the two loops of [close_db]. *)
Definition close_db_file (entry : string * option RmFileHandle) : M unit :=
  rm_close_file entry.2.
Definition close_db_index (entry : string * option IxIndexHandle) : M unit :=
  ix_close_index entry.2.

(** [fhs_] and [ihs_] are unordered maps: the order in which the two loops
    meet the handles is the containers' own.  The model walks them in the
    order of [map_to_list]; the theorems about the calls of a loop are
    stated up to their order. *)
Definition close_db : M unit :=
  flush_meta ;;
  fhs ← gets fhs_;
  for_each (map_to_list fhs) close_db_file ;;
  ihs ← gets ihs_;
  for_each (map_to_list ihs) close_db_index ;;
  modify (set_db_ (λ db, DbMeta.mk EmptyString (DbMeta.tabs_ db))) ;;
  modify (set_tabs_ (λ _, ∅)) ;;
  modify (set_fhs_ (λ _, ∅)) ;;
  modify (set_ihs_ (λ _, ∅)).

(** [outfile << line] on a stream opened on [name] for appending. *)
Definition fstream_append (name : string) (line : string) : M unit :=
  modify (λ w,
    let old := match files w !! (cwd w ++ [name]) with
               | Some (TextFile lines) => lines
               | _ => []
               end in
    set_files <[cwd w ++ [name] := TextFile (old ++ [line])]> w).

Definition show_tables_entry (entry : string * TabMeta.t) : M unit :=
  let tab := entry.2 in
  print_record [TabMeta.name tab] ;;
  fstream_append "output.txt" ("| " +:+ TabMeta.name tab +:+ " |").

Definition show_tables : M unit :=
  fstream_append "output.txt" "| Tables |" ;;
  print_separator ;;
  print_record ["Tables"] ;;
  print_separator ;;
  tabs ← gets (λ w, DbMeta.tabs_ (db_ w));
  for_each (in_key_order tabs) show_tables_entry ;;
  print_separator.

Definition desc_table_field (col : ColMeta.t) : M unit :=
  let field_info := [ColMeta.name col; coltype2str E (ColMeta.type col);
                     if ColMeta.index col then "YES" else "NO"] in
  print_record field_info.

Definition desc_table (tab_name : string) : M unit :=
  tab ← get_table tab_name;
  let captions := ["Field"; "Type"; "Index"] in
  print_separator ;;
  print_record captions ;;
  print_separator ;;
  for_each (TabMeta.cols tab) desc_table_field ;;
  print_separator.

(** The loop of [create_table]: one ColMeta per ColDef, at the running
    offset. *)
Definition add_col (tab_name : string) (acc : Z * list ColMeta.t) (col_def : ColDef.t)
    : Z * list ColMeta.t :=
  let '(curr_offset, cols) := acc in
  let col := ColMeta.mk tab_name (ColDef.name col_def) (ColDef.type col_def)
                        (ColDef.len col_def) curr_offset false in
  (int_add curr_offset (ColDef.len col_def), cols ++ [col]).

Definition create_table (tab_name : string) (col_defs : list ColDef.t) : M unit :=
  db ← gets db_;
  if is_table db tab_name then throw (TableExistsError tab_name) else
  let '(curr_offset, cols) := fold_left (add_col tab_name) col_defs (0, []) in
  let tab := TabMeta.mk tab_name cols [] in
  let record_size := curr_offset in
  rm_create_file tab_name record_size ;;
  tabs_subscript tab_name ;;
  modify (set_tabs_ <[tab_name := tab]>) ;;
  h ← rm_open_file tab_name;
  modify (set_fhs_ (emplace tab_name h)) ;;
  flush_meta.

(** The body of the loop of [drop_table]. *)
Definition drop_table_index (tab_name : string) (index : IndexMeta.t) : M unit :=
  let index_name := get_index_name_cols tab_name (IndexMeta.cols index) in
  index_handle ← ihs_subscript index_name;
  ix_close_index index_handle ;;
  ix_destroy_index_cols tab_name (IndexMeta.cols index) ;;
  modify (set_ihs_ (delete index_name)).

Definition drop_table (tab_name : string) : M unit :=
  db ← gets db_;
  if negb (is_table db tab_name) then throw (TableNotFoundError tab_name) else
  file_handle ← fhs_subscript tab_name;
  rm_close_file file_handle ;;
  rm_destroy_file tab_name ;;
  tab ← tabs_subscript tab_name;
  for_each (TabMeta.indexes tab) (drop_table_index tab_name) ;;
  modify (set_tabs_ (delete tab_name)) ;;
  modify (set_fhs_ (delete tab_name)).

(** [std::for_each] with a body that appends one result per element. *)
Fixpoint collect {A B} (l : list A) (body : A → M B) : M (list B) :=
  match l with
  | [] => mret []
  | x :: l' => y ← body x; ys ← collect l' body; mret (y :: ys)
  end.

Definition add_len (index_meta : IndexMeta.t) (col_meta : ColMeta.t) : IndexMeta.t :=
  IndexMeta.mk (IndexMeta.tab_name index_meta)
               (int_add (IndexMeta.col_tot_len index_meta) (ColMeta.len col_meta))
               (IndexMeta.col_num index_meta) (IndexMeta.cols index_meta).

Definition push_back_index (index_meta : IndexMeta.t) (tab : TabMeta.t) : TabMeta.t :=
  TabMeta.mk (TabMeta.name tab) (TabMeta.cols tab) (TabMeta.indexes tab ++ [index_meta]).

Definition erase_index (pos : nat) (tab : TabMeta.t) : TabMeta.t :=
  TabMeta.mk (TabMeta.name tab) (TabMeta.cols tab) (delete pos (TabMeta.indexes tab)).

(** The lambda of the first [std::for_each] of [create_index]. *)
Definition index_column (tab_name col_name : string) : M ColMeta.t :=
  tab ← get_table tab_name; get_col tab col_name.

Definition create_index (tab_name : string) (col_names : list string) : M unit :=
  ex ← ix_exists tab_name col_names;
  if ex : bool then throw (IndexExistsError tab_name col_names) else
  index_columns ← collect col_names (index_column tab_name);
  ix_create_index tab_name index_columns ;;
  let index_name := get_index_name E tab_name col_names in
  open_index ← ix_open_index tab_name index_columns;
  modify (set_ihs_ (emplace index_name open_index)) ;;
  let _size := wrap_int (Z.of_nat (length index_columns)) in
  let index_meta :=
    fold_left add_len index_columns (IndexMeta.mk tab_name 0 _size index_columns) in
  tab ← tabs_subscript tab_name;
  modify (set_tabs_ <[tab_name := push_back_index index_meta tab]>).

Definition drop_index (tab_name : string) (col_names : list string) : M unit :=
  let index_name := get_index_name E tab_name col_names in
  index_handle ← ihs_subscript index_name;
  ix_close_index index_handle ;;
  ix_destroy_index tab_name col_names ;;
  modify (set_ihs_ (delete index_name)) ;;
  tab ← get_table tab_name;
  index_meta ← get_index_meta tab col_names;
  tab ← get_table tab_name;
  modify (set_tabs_ <[tab_name := erase_index index_meta tab]>).

Definition drop_index_cols (tab_name : string) (cols : list ColMeta.t) : M unit :=
  let index_name := get_index_name_cols tab_name cols in
  index_handle ← ihs_subscript index_name;
  ix_close_index index_handle ;;
  ix_destroy_index_cols tab_name cols ;;
  let col_names := fold_left (λ acc col_meta, acc ++ [ColMeta.name col_meta]) cols [] in
  modify (set_ihs_ (delete (get_index_name_cols tab_name cols))) ;;
  tab ← get_table tab_name;
  index_meta ← get_index_meta tab col_names;
  tab ← get_table tab_name;
  modify (set_tabs_ <[tab_name := erase_index index_meta tab]>).

(** *** The member functions as requests

    A caller drives the manager one request at a time and catches what a
    request throws; the manager's state after a failed request is the state
    at the throw. *)

Inductive Op : Type :=
  | CreateDb (db_name : string)
  | DropDb (db_name : string)
  | OpenDb (db_name : string)
  | FlushMeta
  | CloseDb
  | ShowTables
  | DescTable (tab_name : string)
  | CreateTable (tab_name : string) (col_defs : list ColDef.t)
  | DropTable (tab_name : string)
  | CreateIndex (tab_name : string) (col_names : list string)
  | DropIndex (tab_name : string) (col_names : list string)
  | DropIndexCols (tab_name : string) (cols : list ColMeta.t).

Definition run_op (op : Op) : M unit :=
  match op with
  | CreateDb db_name => create_db db_name
  | DropDb db_name => drop_db db_name
  | OpenDb db_name => open_db db_name
  | FlushMeta => flush_meta
  | CloseDb => close_db
  | ShowTables => show_tables
  | DescTable tab_name => desc_table tab_name
  | CreateTable tab_name col_defs => create_table tab_name col_defs
  | DropTable tab_name => drop_table tab_name
  | CreateIndex tab_name col_names => create_index tab_name col_names
  | DropIndex tab_name col_names => drop_index tab_name col_names
  | DropIndexCols tab_name cols => drop_index_cols tab_name cols
  end.

Definition run_ops (ops : list Op) (w : World) : World :=
  fold_left (λ w op, final_world (run_op op w)) ops w.

(** The requests that change the structure of an open database. *)
Definition structural (op : Op) : bool :=
  match op with
  | CreateTable _ _ | DropTable _ | CreateIndex _ _ | DropIndex _ _ | DropIndexCols _ _ => true
  | _ => false
  end.

(** The requests that open or create a database; only they call [chdir]. *)
Definition enters_directory (op : Op) : bool :=
  match op with
  | CreateDb _ | OpenDb _ => true
  | _ => false
  end.

(** ** Invariants of the spec *)

(** I1: the table names of the schema are exactly the names under which a
    record-file handle is registered, and every registered handle is an open
    one. *)
Definition I1 (w : World) : Prop :=
  dom (DbMeta.tabs_ (db_ w)) = dom (fhs_ w) ∧
  map_Forall (λ _ h, is_Some h) (fhs_ w).

(** The identities of the indexes of a table, and of all tables, in the way
    [open_db] and [drop_table] derive them: from the table's key and the
    columns of the IndexMeta. *)
Definition table_index_names (tab_name : string) (tab : TabMeta.t) : list string :=
  (λ index, get_index_name_cols tab_name (IndexMeta.cols index)) <$> TabMeta.indexes tab.

Definition index_names (tabs : gmap string TabMeta.t) : list string :=
  map_to_list tabs ≫= (λ entry, table_index_names entry.1 entry.2).

(** I2: the IndexMetas of the schema and the registered index handles
    correspond one to one through the identity, and every registered handle
    is an open one. *)
Definition I2 (w : World) : Prop :=
  NoDup (index_names (DbMeta.tabs_ (db_ w))) ∧
  list_to_set (index_names (DbMeta.tabs_ (db_ w))) = dom (ihs_ w) ∧
  map_Forall (λ _ h, is_Some h) (ihs_ w).

(** The index store knows every registered index: its file is in the current
    directory, so [exists] answers [true] for it. *)
Definition store_has_registered (w : World) : Prop :=
  ∀ index_name, index_name ∈ dom (ihs_ w) → is_Some (files w !! (cwd w ++ [index_name])).

(** No database is open: the schema and both registries are empty. *)
Definition closed (w : World) : Prop :=
  db_ w = DbMeta.mk EmptyString ∅ ∧ fhs_ w = ∅ ∧ ihs_ w = ∅.

Definition meta_path (w : World) : Path := cwd w ++ [DB_META_NAME E].

End SmManager.

(** ** A concrete environment

    The index identity [table_col1_..._coln.idx], the file names [db.meta]
    and [db.log], and collaborators that refuse nothing; the reader throws
    when it cannot parse. *)

Definition sample_index_name (tab_name : string) (col_names : list string) : string :=
  tab_name +:+ String.concat EmptyString (map (λ c, "_" +:+ c) col_names) +:+ ".idx".

Definition quiet : Externals :=
  mkExternals "db.meta" "db.log" sample_index_name (λ _, "INT") (λ _, "error")
              (λ _ _, false) (λ _, None).

(** A fresh process: one directory, nothing open. *)
Definition fresh : World := mkWorld (DbMeta.mk EmptyString ∅) ∅ ∅ [] {[ [] ]} ∅ [].

(** The scenario of the spec: database [shop], table [orders] with the
    columns [id] and [total], an index on [id]. *)
Definition orders_cols : list ColDef.t := [ColDef.mk "id" 0 4; ColDef.mk "total" 0 4].

Definition shop_opened : World :=
  run_ops quiet [CreateDb "shop"; OpenDb "shop"] fresh.
Definition shop_with_orders : World :=
  run_ops quiet [CreateTable "orders" orders_cols] shop_opened.
Definition shop_with_index : World :=
  run_ops quiet [CreateIndex "orders" ["id"]] shop_with_orders.

(** ** The statements of the spec, as predicates on the model *)

Definition total_len (col_defs : list ColDef.t) : Z :=
  foldr (λ col_def acc, ColDef.len col_def + acc) 0 col_defs.

(** Offset law (I3) for the TabMeta built from [col_defs]: column [i] is the
    [i]-th definition, placed at the sum of the lengths before it. *)
Definition offset_law (col_defs : list ColDef.t) (tab : TabMeta.t) : Prop :=
  length (TabMeta.cols tab) = length col_defs ∧
  ∀ i col_def, col_defs !! i = Some col_def →
    ∃ col, TabMeta.cols tab !! i = Some col ∧
           ColMeta.name col = ColDef.name col_def ∧
           ColMeta.len col = ColDef.len col_def ∧
           ColMeta.offset col = total_len (take i col_defs).

(** A returning [create_table] stores a TabMeta that obeys the offset law and
    hands the total length to the record store as the record size. *)
Definition create_table_lays_out (E : Externals) (tab_name : string)
    (col_defs : list ColDef.t) (w : World) : Prop :=
  ∀ w', create_table E tab_name col_defs w = Ok tt w' →
    (∃ tab, DbMeta.tabs_ (db_ w') !! tab_name = Some tab ∧ offset_law col_defs tab) ∧
    trace w' = trace w ++ [RmCreateFile tab_name (total_len col_defs); RmOpenFile tab_name].

(** The layout the loop of [create_table] would produce with exact
    arithmetic. *)
Fixpoint layout (tab_name : string) (curr_offset : Z) (col_defs : list ColDef.t)
    : list ColMeta.t :=
  match col_defs with
  | [] => []
  | col_def :: rest =>
      ColMeta.mk tab_name (ColDef.name col_def) (ColDef.type col_def)
                 (ColDef.len col_def) curr_offset false
      :: layout tab_name (curr_offset + ColDef.len col_def) rest
  end.

(** Invariant maintenance, as the spec states it: a returning request keeps
    I1 and I2. *)
Definition preserves_I1_I2 (E : Externals) (op : Op) : Prop :=
  ∀ w w', I1 w → I2 E w → run_op E op w = Ok tt w' → I1 w' ∧ I2 E w'.

(** What [create_index] relies on beyond I1 and I2: the index store has a
    file for every registered index, and the table is in the schema unless a
    column has to be resolved on it anyway. *)
Definition create_index_grounded (w : World) (op : Op) : Prop :=
  match op with
  | CreateIndex tab_name col_names =>
      store_has_registered w ∧
      (col_names ≠ [] ∨ is_Some (DbMeta.tabs_ (db_ w) !! tab_name))
  | _ => True
  end.

(** The scenario's database after the index file of [orders(id)] has been
    removed behind the manager's back. *)
Definition shop_index_file_lost : World :=
  set_files (delete ["shop"; "orders_id.idx"]) shop_with_index.

(** Two columns whose lengths add up to more than an [int] holds. *)
Definition overflowing_cols : list ColDef.t :=
  [ColDef.mk "a" 0 2147483647; ColDef.mk "b" 0 1].

(** Create/drop symmetry: [create_table] followed by [drop_table] gives back
    the schema and both registries. *)
Definition create_drop_restores (E : Externals) (tab_name : string)
    (col_defs : list ColDef.t) (w : World) : Prop :=
  ∀ w', (create_table E tab_name col_defs ;; drop_table E tab_name) w = Ok tt w' →
    db_ w' = db_ w ∧ fhs_ w' = fhs_ w ∧ ihs_ w' = ihs_ w.







Definition empty_db : DbMeta.t := DbMeta.mk EmptyString ∅.

(** [close_db] as the spec wants it on a closed manager: nothing happens, and
    closing twice is closing once. *)
Definition close_db_idle_when_closed (E : Externals) (w : World) : Prop :=
  closed w → close_db E w = Ok tt w.

Definition close_db_idempotent (E : Externals) (w : World) : Prop :=
  (close_db E ;; close_db E) w = close_db E w.

(** What a second [close_db] does: the metadata file of the current directory
    is overwritten with the empty schema. *)
Definition rewrite_meta_empty (E : Externals) (w : World) : World :=
  set_files <[meta_path E w := MetaFile empty_db]> w.

Definition shop_closed : World := run_ops quiet [CloseDb] shop_with_orders.

(** Flag maintenance, as the spec wants it: after [create_index] the columns
    of the index are flagged in the table's schema. *)
Definition create_index_flags_columns (E : Externals) (tab_name : string)
    (col_names : list string) (w : World) : Prop :=
  ∀ w', create_index E tab_name col_names w = Ok tt w' →
    ∃ tab, DbMeta.tabs_ (db_ w') !! tab_name = Some tab ∧
      ∀ col, col ∈ TabMeta.cols tab → ColMeta.name col ∈ col_names →
             ColMeta.index col = true.

(** The rows [desc_table] prints for a column list. *)
Definition desc_rows (E : Externals) (cols : list ColMeta.t) : list Event :=
  [PrintSeparator; PrintRecord ["Field"; "Type"; "Index"]; PrintSeparator] ++
  ((λ col, PrintRecord [ColMeta.name col; coltype2str E (ColMeta.type col);
                        if ColMeta.index col then "YES" else "NO"]) <$> cols) ++
  [PrintSeparator].

Definition log_all (evs : list Event) (w : World) : World :=
  foldl (λ w ev, log ev w) w evs.

(** The registry contract of the spec for [drop_index]: without a registered
    handle the call fails and has done nothing. *)
Definition drop_index_checks_handle (E : Externals) (tab_name : string)
    (col_names : list string) (w : World) : Prop :=
  ihs_ w !! get_index_name E tab_name col_names = None →
  ∃ e, drop_index E tab_name col_names w = Throw e w.

(** The world in which [drop_index] calls [close_index] when no handle was
    registered: [ihs_[index_name]] has made a null entry. *)
Definition with_null_entry (index_name : string) (w : World) : World :=
  set_ihs_ <[index_name := None]> w.

(** The scenario's database after the handle of the index [orders(id)] has
    been lost from the registry. *)
Definition shop_handle_lost : World :=
  set_ihs_ (delete "orders_id.idx") shop_with_index.

(** The catalog has an index of [tab_name] on exactly these columns. *)
Definition catalog_has_index (w : World) (tab_name : string) (col_names : list string) : Prop :=
  ∃ tab index, DbMeta.tabs_ (db_ w) !! tab_name = Some tab ∧
               index ∈ TabMeta.indexes tab ∧
               names_of (IndexMeta.cols index) = col_names.

(** A computation leaves a component of the world alone, however it ends. *)
Definition keeps {A B} (proj : World → B) (m : M A) : Prop :=
  ∀ w, proj (final_world (m w)) = proj w.

(** A request names a database by a plain directory name. *)
Definition plain_name (op : Op) : Prop :=
  match op with
  | CreateDb db_name | DropDb db_name | OpenDb db_name => plain_component db_name = true
  | _ => True
  end.

(** The claim of the spec about the working directory: once [open_db] has
    moved the process into the database directory, no later request takes it
    back to the directory it came from. *)
Definition open_db_never_left (E : Externals) (db_name : string) (w : World) : Prop :=
  ∀ w1, open_db E db_name w = Ok tt w1 → cwd w1 ≠ cwd w →
    ∀ ops, cwd (run_ops E ops w1) ≠ cwd w.

(** ** Further statements about the member functions *)

(** The worlds [create_db] goes through when nothing stops it: the directory
    made and entered and the metadata of the empty schema written; then the
    log file made; then the process back where it started. *)
Definition db_dir_made (E : Externals) (db_name : string) (w : World) : World :=
  let d := cwd w ++ [db_name] in
  set_files <[d ++ [DB_META_NAME E] := MetaFile (DbMeta.mk db_name ∅)]>
    (set_cwd d (set_dirs (λ ds, {[d]} ∪ ds) (log (System ("mkdir " +:+ db_name)) w))).

Definition db_log_made (E : Externals) (db_name : string) (w : World) : World :=
  set_files <[cwd w ++ [db_name; LOG_FILE_NAME E] := EmptyFile]>
    (log (DiskCreateFile (LOG_FILE_NAME E)) (db_dir_made E db_name w)).

Definition created_db (E : Externals) (db_name : string) (w : World) : World :=
  set_cwd (cwd w) (db_log_made E db_name w).

(** Nothing is in the way of [create_db]: the name is free in the current
    directory, the current directory is there to come back to, and the shell
    can be started. *)
Definition create_db_can_start (E : Externals) (db_name : string) (w : World) : Prop :=
  ¬ (cwd w ++ [db_name] ∈ dirs w) ∧
  files w !! (cwd w ++ [db_name]) = None ∧
  cwd w ∈ dirs w ∧
  refuses E w (System ("mkdir " +:+ db_name)) = false.

(** Collaborators of which the disk manager refuses to make a file. *)
Definition disk_full : Externals :=
  mkExternals "db.meta" "db.log" sample_index_name (λ _, "INT") (λ _, "error")
              (λ _ ev, match ev with DiskCreateFile _ => true | _ => false end)
              (λ _, None).

(** The manager's own state: the schema and the two registries. *)
Definition manager_state (w : World)
    : DbMeta.t * gmap string (option RmFileHandle) * gmap string (option IxIndexHandle) :=
  (db_ w, fhs_ w, ihs_ w).

(** The requests that work on the file system or only read the schema. *)
Definition outside_schema (op : Op) : bool :=
  match op with
  | CreateDb _ | DropDb _ | FlushMeta | ShowTables | DescTable _ => true
  | _ => false
  end.

(** The scenario's database seen from the directory the process started
    in, and after its table has been dropped. *)
Definition shop_seen_from_parent : World := set_cwd [] shop_with_index.

Definition shop_table_dropped : World := run_ops quiet [DropTable "orders"] shop_with_index.

Definition shop_index_dropped : World :=
  run_ops quiet [CreateIndex "orders" ["id"]; DropIndex "orders" ["id"]] shop_with_orders.

(** The key length of an index: the sum of the lengths of its columns. *)
Definition key_len (cols : list ColMeta.t) : Z :=
  foldr (λ col acc, ColMeta.len col + acc) 0 cols.

(** [col] is what [get_col] finds for [name] in the table. *)
Definition resolves_to (tab : TabMeta.t) (name : string) (col : ColMeta.t) : Prop :=
  ∃ i, list_find (λ c, ColMeta.name c = name) (TabMeta.cols tab) = Some (i, col).

(** The table has no index on exactly these columns. *)
Definition no_index_on (tab : TabMeta.t) (col_names : list string) : Prop :=
  list_find (λ ix, names_of (IndexMeta.cols ix) = col_names) (TabMeta.indexes tab) = None.


(** What has been appended to [output.txt] in the current directory. *)
Definition output_lines (w : World) : list string :=
  match files w !! (cwd w ++ ["output.txt"]) with
  | Some (TextFile lines) => lines
  | _ => []
  end.

(** The line [show_tables] writes for an entry of the schema. *)
Definition table_line (entry : string * TabMeta.t) : string :=
  "| " +:+ TabMeta.name entry.2 +:+ " |".

(** Neither a directory nor a file lies at or below [cwd/db_name]. *)
Definition nothing_under (db_name : string) (w : World) : Prop :=
  ∀ p, (cwd w ++ [db_name]) `prefix_of` p → ¬ (p ∈ dirs w) ∧ files w !! p = None.

(** * Proofs *)

(** ** Running the monad *)

Lemma bind_Ok {A B} (m : M A) (f : A → M B) w b w' :
  (m ≫= f) w = Ok b w' ↔ ∃ a w1, m w = Ok a w1 ∧ f a w1 = Ok b w'.
Proof.
  unfold mbind, M_bind. split.
  - destruct (m w) as [a w1|e w1]; [eauto | discriminate].
  - intros (a & w1 & -> & ?). done.
Qed.

Lemma bind_run {A B} (m : M A) (f : A → M B) w a w1 :
  m w = Ok a w1 → (m ≫= f) w = f a w1.
Proof. unfold mbind, M_bind. by intros ->. Qed.

Lemma bind_throw {A B} (m : M A) (f : A → M B) w e w1 :
  m w = Throw e w1 → (m ≫= f) w = Throw e w1.
Proof. unfold mbind, M_bind. by intros ->. Qed.

Lemma call_Ok E ev eff w u w' :
  call E ev eff w = Ok u w' ↔ refuses E w ev = false ∧ w' = eff (log ev w).
Proof.
  unfold call. destruct (refuses E w ev); destruct u; split;
    try (intros [??]); intros; simplify_eq; done.
Qed.

Lemma gets_Ok {A} (f : World → A) w a w' : gets f w = Ok a w' ↔ a = f w ∧ w' = w.
Proof. unfold gets. split; [intros; by simplify_eq | by intros [-> ->]]. Qed.

Lemma modify_Ok f w u w' : modify f w = Ok u w' ↔ w' = f w.
Proof. unfold modify. destruct u. split; [intros; by simplify_eq | by intros ->]. Qed.

Lemma mret_Ok {A} (a : A) w b w' : (mret a : M A) w = Ok b w' ↔ b = a ∧ w' = w.
Proof. unfold mret, M_ret. split; [intros; by simplify_eq | by intros [-> ->]]. Qed.

Lemma subscript_world_Ok {V} (dflt : V) k (m : gmap string V) (g : V → gmap string V → World)
    (a : V) w' :
  (let '(v, m') := subscript dflt k m in Ok v (g v m') : Result V) = Ok a w' ↔
  a = (subscript dflt k m).1 ∧ w' = g a (subscript dflt k m).2.
Proof.
  destruct (subscript dflt k m) as [v m']. simpl.
  split; [intros; by simplify_eq | by intros [-> ->]].
Qed.

(** Decompose a hypothesis saying that a straight-line block returned. *)
Ltac inv_step :=
  match goal with
  | H : (_ ≫= _) _ = Ok _ _ |- _ =>
      let a := fresh "a" in let w := fresh "w" in let H1 := fresh "Hrun" in
      apply bind_Ok in H as (a & w & H1 & H)
  | H : call _ _ _ _ = Ok _ _ |- _ =>
      let Hr := fresh "Haccept" in apply call_Ok in H as [Hr ->]
  | H : gets _ _ = Ok _ _ |- _ => apply gets_Ok in H as [-> ->]
  | H : modify _ _ = Ok _ _ |- _ => apply modify_Ok in H as ->
  | H : mret _ _ = Ok _ _ |- _ => apply mret_Ok in H as [? ->]; subst
  | H : throw _ _ = Ok _ _ |- _ => discriminate H
  | H : fhs_subscript _ _ = Ok _ _ |- _ =>
      unfold fhs_subscript in H; apply subscript_world_Ok in H as [-> ->]
  | H : ihs_subscript _ _ = Ok _ _ |- _ =>
      unfold ihs_subscript in H; apply subscript_world_Ok in H as [-> ->]
  | H : tabs_subscript _ _ = Ok _ _ |- _ =>
      unfold tabs_subscript in H; apply subscript_world_Ok in H as [-> ->]
  | H : (if ?b then _ else _) _ = Ok _ _ |- _ => destruct b eqn:?
  | H : (let '(_, _) := ?x in _) _ = Ok _ _ |- _ => destruct x eqn:?
  end.

Ltac unfold_collaborators H :=
  unfold rm_create_file, rm_open_file, rm_close_file, rm_destroy_file,
    ix_exists, ix_create_index, ix_open_index, ix_close_index,
    ix_destroy_index_cols, ix_destroy_index, disk_create_file, flush_meta,
    ofstream_write, print_separator, print_record, cout in H.

Ltac inv_run := repeat inv_step.

(** ** C2: the offset law of [create_table] *)

Lemma wrap_int_in_range z : in_int_range z → wrap_int z = z.
Proof.
  unfold in_int_range, wrap_int, INT_MIN, INT_MAX. intros Hz.
  rewrite Z.mod_small; lia.
Qed.

Lemma fold_add_col_exact tab_name col_defs curr_offset cols :
  (∀ n, in_int_range (curr_offset + total_len (take n col_defs))) →
  fold_left (add_col tab_name) col_defs (curr_offset, cols) =
    (curr_offset + total_len col_defs, cols ++ layout tab_name curr_offset col_defs).
Proof.
  revert curr_offset cols.
  induction col_defs as [|col_def rest IH]; intros curr_offset cols Hrange; simpl.
  - by rewrite Z.add_0_r, app_nil_r.
  - unfold int_add. rewrite wrap_int_in_range.
    + rewrite IH.
      * f_equal; [lia | by rewrite <- app_assoc].
      * intros n. specialize (Hrange (S n)). simpl in Hrange.
        by rewrite <- Z.add_assoc.
    + specialize (Hrange 1%nat). simpl in Hrange.
      by rewrite Z.add_0_r in Hrange.
Qed.

Lemma layout_length tab_name curr_offset col_defs :
  length (layout tab_name curr_offset col_defs) = length col_defs.
Proof.
  revert curr_offset. induction col_defs; intros; simpl; [done | by f_equal].
Qed.

Lemma layout_lookup tab_name curr_offset col_defs i col_def :
  col_defs !! i = Some col_def →
  layout tab_name curr_offset col_defs !! i =
    Some (ColMeta.mk tab_name (ColDef.name col_def) (ColDef.type col_def)
                     (ColDef.len col_def) (curr_offset + total_len (take i col_defs)) false).
Proof.
  revert curr_offset i.
  induction col_defs as [|cd rest IH]; intros curr_offset [|i] Hi; simplify_eq/=.
  - by rewrite Z.add_0_r.
  - rewrite (IH _ _ Hi). by rewrite Z.add_assoc.
Qed.

Lemma layout_offset_law tab_name col_defs :
  offset_law col_defs (TabMeta.mk tab_name (layout tab_name 0 col_defs) []).
Proof.
  split; simpl; [apply layout_length |].
  intros i col_def Hi. eexists. split; [by apply layout_lookup | done].
Qed.

(** C2 (amended): whenever every running total of the column lengths lies in
    the range of [int], the TabMeta stored by a returning [create_table]
    places each column at the sum of the lengths of the columns before it
    (the first at 0), and the record size handed to the record store is the
    sum of all lengths. *)
Theorem create_table_offset_law E tab_name col_defs w :
  (∀ n, in_int_range (total_len (take n col_defs))) →
  create_table_lays_out E tab_name col_defs w.
Proof.
  intros Hrange w' Hrun. unfold create_table in Hrun.
  rewrite (fold_add_col_exact tab_name col_defs 0 []) in Hrun by done.
  simpl in Hrun. unfold_collaborators Hrun. inv_run. simpl.
  split.
  - eexists. split; [apply lookup_insert_eq | apply layout_offset_law].
  - by rewrite <- !app_assoc.
Qed.

(** ** C1: the registries follow the schema *)

Lemma subscript_fst_lookup {V} (dflt : V) k (m : gmap string V) v :
  m !! k = Some v → subscript dflt k m = (v, m).
Proof. unfold subscript. by intros ->. Qed.

Lemma delete_subscript {V} (dflt : V) k (m : gmap string V) :
  delete k (subscript dflt k m).2 = delete k m.
Proof.
  unfold subscript. destruct (m !! k) eqn:Hk; simpl; [done |].
  by rewrite delete_insert_eq.
Qed.

Lemma insert_subscript {V} (dflt : V) k v (m : gmap string V) :
  <[k := v]> (subscript dflt k m).2 = <[k := v]> m.
Proof.
  unfold subscript. destruct (m !! k) eqn:Hk; simpl; [done |].
  by rewrite insert_insert_eq.
Qed.

Lemma index_names_insert E tabs k tab :
  index_names E (<[k := tab]> tabs) ≡ₚ
    table_index_names E k tab ++ index_names E (delete k tabs).
Proof.
  unfold index_names.
  assert (<[k := tab]> tabs = <[k := tab]> (delete k tabs)) as ->
    by (by rewrite insert_delete_eq).
  by rewrite map_to_list_insert by apply lookup_delete_eq.
Qed.

Lemma index_names_lookup E tabs k tab :
  tabs !! k = Some tab →
  index_names E tabs ≡ₚ table_index_names E k tab ++ index_names E (delete k tabs).
Proof.
  intros Hk. rewrite <- (insert_id tabs k tab Hk) at 1. apply index_names_insert.
Qed.

Lemma index_names_fresh E tabs k :
  tabs !! k = None → index_names E (delete k tabs) = index_names E tabs.
Proof. intros Hk. by rewrite delete_id. Qed.

Ltac find_loop tac :=
  match goal with H : for_each _ _ _ = Ok _ _ |- _ => tac H end.

Lemma create_table_Ok E tab_name col_defs w w' :
  create_table E tab_name col_defs w = Ok tt w' →
  DbMeta.tabs_ (db_ w) !! tab_name = None ∧
  db_ w' = DbMeta.mk (DbMeta.name_ (db_ w))
             (<[tab_name := TabMeta.mk tab_name
                              (fold_left (add_col tab_name) col_defs (0, [])).2 []]>
                (DbMeta.tabs_ (db_ w))) ∧
  fhs_ w' = emplace tab_name (Some (RmFH (cwd w ++ [tab_name]))) (fhs_ w) ∧
  ihs_ w' = ihs_ w.
Proof.
  intros Hrun. unfold create_table in Hrun. unfold_collaborators Hrun. inv_run.
  apply bool_decide_eq_false in Heqb. simpl.
  rewrite insert_subscript.
  split; [by apply eq_None_not_Some | done].
Qed.

Lemma drop_table_index_Ok E tab_name index w u w' :
  drop_table_index E tab_name index w = Ok u w' →
  db_ w' = db_ w ∧ fhs_ w' = fhs_ w ∧
  ihs_ w' = delete (get_index_name_cols E tab_name (IndexMeta.cols index)) (ihs_ w).
Proof.
  intros Hrun. unfold drop_table_index in Hrun. unfold_collaborators Hrun. inv_run.
  simpl. by rewrite delete_subscript.
Qed.

Lemma drop_table_loop E tab_name indexes w u w' :
  for_each indexes (drop_table_index E tab_name) w = Ok u w' →
  db_ w' = db_ w ∧ fhs_ w' = fhs_ w ∧
  ihs_ w' = foldl (λ m k, delete k m) (ihs_ w)
              (table_index_names E tab_name (TabMeta.mk tab_name [] indexes)).
Proof.
  revert w. induction indexes as [|index rest IH]; intros w Hrun; simpl in Hrun.
  - inv_run. done.
  - inv_run.
    apply IH in Hrun as (-> & -> & ->).
    match goal with H : drop_table_index _ _ _ _ = Ok _ _ |- _ =>
      apply drop_table_index_Ok in H as (-> & -> & ->) end.
    done.
Qed.

Lemma drop_table_Ok E tab_name w w' :
  drop_table E tab_name w = Ok tt w' →
  ∃ tab, DbMeta.tabs_ (db_ w) !! tab_name = Some tab ∧
  db_ w' = DbMeta.mk (DbMeta.name_ (db_ w)) (delete tab_name (DbMeta.tabs_ (db_ w))) ∧
  fhs_ w' = delete tab_name (fhs_ w) ∧
  ihs_ w' = foldl (λ m k, delete k m) (ihs_ w) (table_index_names E tab_name tab).
Proof.
  intros Hrun. unfold drop_table in Hrun. unfold_collaborators Hrun. inv_run.
  apply negb_false_iff, bool_decide_eq_true in Heqb as [tab Htab].
  find_loop ltac:(fun H => apply drop_table_loop in H as (Hdb & Hfhs & Hihs)).
  simpl in *.
  rewrite (subscript_fst_lookup _ _ _ _ Htab) in *. simpl in *.
  exists tab. rewrite Hdb, Hfhs, Hihs. simpl.
  by rewrite delete_subscript.
Qed.

Lemma dom_foldl_delete {V} (m : gmap string V) l :
  dom (foldl (λ m k, delete k m) m l) = dom m ∖ list_to_set l.
Proof.
  revert m. induction l as [|k l IH]; intros m; simpl.
  - by rewrite difference_empty_L.
  - by rewrite IH, dom_delete_L, difference_difference_l_L.
Qed.

Lemma map_Forall_foldl_delete {V} (P : string → V → Prop) (m : gmap string V) l :
  map_Forall P m → map_Forall P (foldl (λ m k, delete k m) m l).
Proof.
  revert m. induction l as [|k l IH]; intros m Hm; simpl; [done |].
  by apply IH, map_Forall_delete.
Qed.

Lemma create_table_preserves E tab_name col_defs :
  preserves_I1_I2 E (CreateTable tab_name col_defs).
Proof.
  intros w w' [Hdom Hopen] (Hnd & Hset & Hiopen) Hrun. simpl in Hrun.
  apply create_table_Ok in Hrun as (Hfresh & Hdb & Hfhs & Hihs).
  assert (Hfresh' : fhs_ w !! tab_name = None).
  { apply not_elem_of_dom. rewrite <- Hdom. by apply not_elem_of_dom. }
  unfold I1, I2. rewrite Hdb, Hfhs, Hihs. simpl.
  unfold emplace. rewrite Hfresh'.
  rewrite !dom_insert_L, Hdom.
  rewrite index_names_insert, index_names_fresh by done. simpl.
  repeat split; try done.
  by apply map_Forall_insert_2.
Qed.

Lemma drop_table_preserves E tab_name :
  preserves_I1_I2 E (DropTable tab_name).
Proof.
  intros w w' [Hdom Hopen] (Hnd & Hset & Hiopen) Hrun. simpl in Hrun.
  apply drop_table_Ok in Hrun as (tab & Htab & Hdb & Hfhs & Hihs).
  unfold I1, I2. rewrite Hdb, Hfhs, Hihs. simpl.
  rewrite !dom_delete_L, Hdom.
  rewrite (index_names_lookup E _ _ _ Htab) in Hnd, Hset.
  apply NoDup_app in Hnd as (Hown & Hdisj & Hrest).
  rewrite list_to_set_app_L in Hset.
  rewrite dom_foldl_delete, <- Hset.
  repeat split; try done.
  - by apply map_Forall_delete.
  - apply set_eq. intros x. rewrite elem_of_difference, elem_of_union, !elem_of_list_to_set.
    split; [intros Hx | intros [[Hx | Hx] Hnot]]; [| done | done].
    split; [by right | intros Hown'; by apply (Hdisj x)].
  - by apply map_Forall_foldl_delete.
Qed.

Lemma get_table_Ok tab_name w tab w' :
  get_table tab_name w = Ok tab w' ↔
  DbMeta.tabs_ (db_ w) !! tab_name = Some tab ∧ w' = w.
Proof.
  unfold get_table. destruct (DbMeta.tabs_ (db_ w) !! tab_name);
    split; try intros [??]; intros; by simplify_eq.
Qed.

Lemma get_col_Ok tab col_name w c w' :
  get_col tab col_name w = Ok c w' →
  c ∈ TabMeta.cols tab ∧ ColMeta.name c = col_name ∧ w' = w.
Proof.
  unfold get_col. destruct (list_find _ _) as [[i c']|] eqn:Hfind; [|done].
  intros [-> ->]%mret_Ok. apply list_find_Some in Hfind as (Hi & Hname & _).
  split; [by eapply list_elem_of_lookup_2 | done].
Qed.

Lemma get_index_meta_Ok tab col_names w pos w' :
  get_index_meta tab col_names w = Ok pos w' →
  (∃ index, TabMeta.indexes tab !! pos = Some index ∧
            names_of (IndexMeta.cols index) = col_names) ∧ w' = w.
Proof.
  unfold get_index_meta. destruct (list_find _ _) as [[i index]|] eqn:Hfind; [|done].
  intros [-> ->]%mret_Ok. apply list_find_Some in Hfind as (Hi & Hname & _).
  eauto.
Qed.

Lemma index_column_Ok tab_name col_name w c w' :
  index_column tab_name col_name w = Ok c w' →
  is_Some (DbMeta.tabs_ (db_ w) !! tab_name) ∧ ColMeta.name c = col_name ∧ w' = w.
Proof.
  unfold index_column. intros Hrun. inv_run.
  apply get_table_Ok in Hrun0 as [Htab ->].
  apply get_col_Ok in Hrun as (_ & ? & ->). eauto.
Qed.

Lemma collect_index_column tab_name col_names w cols w' :
  collect col_names (index_column tab_name) w = Ok cols w' →
  names_of cols = col_names ∧ w' = w ∧
  (col_names ≠ [] → is_Some (DbMeta.tabs_ (db_ w) !! tab_name)).
Proof.
  revert w cols. induction col_names as [|col_name rest IH]; intros w cols Hrun;
    simpl in Hrun; inv_run.
  - done.
  - apply index_column_Ok in Hrun0 as (Htab & <- & ->).
    apply IH in Hrun1 as (<- & -> & _). done.
Qed.

Lemma fold_add_len_cols cols index_meta :
  IndexMeta.cols (fold_left add_len cols index_meta) = IndexMeta.cols index_meta.
Proof.
  revert index_meta. induction cols as [|c cols IH]; intros; simpl; [done |].
  by rewrite IH.
Qed.

Lemma create_index_Ok E tab_name col_names w w' :
  create_index E tab_name col_names w = Ok tt w' →
  files w !! (cwd w ++ [get_index_name E tab_name col_names]) = None ∧
  (col_names ≠ [] → is_Some (DbMeta.tabs_ (db_ w) !! tab_name)) ∧
  ∃ index_meta,
    names_of (IndexMeta.cols index_meta) = col_names ∧
    db_ w' = DbMeta.mk (DbMeta.name_ (db_ w))
               (<[tab_name := push_back_index index_meta
                    (subscript default_TabMeta tab_name (DbMeta.tabs_ (db_ w))).1]>
                  (DbMeta.tabs_ (db_ w))) ∧
    fhs_ w' = fhs_ w ∧
    ihs_ w' = emplace (get_index_name E tab_name col_names)
                (Some (IxIH (cwd w ++ [get_index_name E tab_name col_names]))) (ihs_ w).
Proof.
  intros Hrun. unfold create_index in Hrun. unfold_collaborators Hrun. inv_run.
  match goal with H : collect _ _ _ = Ok _ _ |- _ =>
    apply collect_index_column in H as (Hnames & -> & Htab) end.
  apply bool_decide_eq_false in Heqb.
  split; [by apply eq_None_not_Some |]. split; [done |].
  eexists. split; [| simpl; rewrite insert_subscript; repeat split].
  - by rewrite fold_add_len_cols.
  - unfold get_index_name_cols. by rewrite Hnames.
Qed.

Lemma drop_index_Ok E tab_name col_names w w' :
  drop_index E tab_name col_names w = Ok tt w' →
  ∃ tab pos index,
    DbMeta.tabs_ (db_ w) !! tab_name = Some tab ∧
    TabMeta.indexes tab !! pos = Some index ∧
    names_of (IndexMeta.cols index) = col_names ∧
    db_ w' = DbMeta.mk (DbMeta.name_ (db_ w))
               (<[tab_name := erase_index pos tab]> (DbMeta.tabs_ (db_ w))) ∧
    fhs_ w' = fhs_ w ∧
    ihs_ w' = delete (get_index_name E tab_name col_names) (ihs_ w).
Proof.
  intros Hrun. unfold drop_index in Hrun. unfold_collaborators Hrun. inv_run.
  repeat match goal with
  | H : get_table _ _ = Ok _ _ |- _ => apply get_table_Ok in H as [? ->]
  | H : get_index_meta _ _ _ = Ok _ _ |- _ =>
      apply get_index_meta_Ok in H as [(index & ? & ?) ->]
  end.
  simpl in *. simplify_eq. eexists _, _, _. repeat split; try done.
  simpl. by rewrite delete_subscript.
Qed.

(** The two shapes of [drop_index] run the same computation. *)
Lemma names_of_fold cols :
  fold_left (λ acc col_meta, acc ++ [ColMeta.name col_meta]) cols [] = names_of cols.
Proof.
  enough (∀ acc, fold_left (λ acc col_meta, acc ++ [ColMeta.name col_meta]) cols acc
                 = acc ++ names_of cols) as H by apply H.
  induction cols as [|c cols IH]; intros acc; simpl.
  - by rewrite app_nil_r.
  - rewrite IH. by rewrite <- app_assoc.
Qed.

Lemma drop_index_cols_as_names E tab_name cols :
  drop_index_cols E tab_name cols = drop_index E tab_name (names_of cols).
Proof.
  unfold drop_index_cols, drop_index, ix_destroy_index_cols, get_index_name_cols.
  by rewrite names_of_fold.
Qed.

Lemma create_index_preserves E tab_name col_names w w' :
  store_has_registered w →
  col_names ≠ [] ∨ is_Some (DbMeta.tabs_ (db_ w) !! tab_name) →
  I1 w → I2 E w →
  create_index E tab_name col_names w = Ok tt w' →
  I1 w' ∧ I2 E w'.
Proof.
  intros Hstore Hres [Hdom Hopen] (Hnd & Hset & Hiopen) Hrun.
  apply create_index_Ok in Hrun as (Hfile & Htab & im & Hnames & Hdb & Hfhs & Hihs).
  assert (is_Some (DbMeta.tabs_ (db_ w) !! tab_name)) as [tab Htab'] by (destruct Hres; auto).
  rewrite (subscript_fst_lookup _ _ _ _ Htab') in Hdb. simpl in Hdb.
  set (key := get_index_name E tab_name col_names) in *.
  assert (Hkey : ihs_ w !! key = None).
  { apply not_elem_of_dom. intros Hin. apply Hstore in Hin as [? Hin]. congruence. }
  unfold emplace in Hihs. rewrite Hkey in Hihs.
  unfold I1, I2. rewrite Hdb, Hfhs, Hihs. simpl.
  rewrite dom_insert_lookup_L by eauto.
  assert (Hperm : index_names E (<[tab_name := push_back_index im tab]> (DbMeta.tabs_ (db_ w)))
                  ≡ₚ key :: index_names E (DbMeta.tabs_ (db_ w))).
  { rewrite index_names_insert, (index_names_lookup E _ _ _ Htab').
    unfold table_index_names. simpl. rewrite fmap_app. simpl.
    unfold get_index_name_cols at 2. rewrite Hnames. fold key.
    rewrite <- (assoc_L (++)). simpl. symmetry. apply Permutation_middle. }
  rewrite Hperm, list_to_set_cons, dom_insert_L, Hset.
  repeat split; try done.
  - constructor; [| done]. rewrite <- (elem_of_list_to_set (C := gset string)), Hset.
    by apply not_elem_of_dom.
  - by apply map_Forall_insert_2.
Qed.

Lemma drop_index_preserves E tab_name col_names :
  preserves_I1_I2 E (DropIndex tab_name col_names).
Proof.
  intros w w' [Hdom Hopen] (Hnd & Hset & Hiopen) Hrun. simpl in Hrun.
  apply drop_index_Ok in Hrun
    as (tab & pos & index & Htab & Hpos & Hnames & Hdb & Hfhs & Hihs).
  set (key := get_index_name E tab_name col_names) in *.
  unfold I1, I2. rewrite Hdb, Hfhs, Hihs. simpl.
  rewrite dom_insert_lookup_L by eauto.
  assert (Hperm : index_names E (DbMeta.tabs_ (db_ w)) ≡ₚ
            key :: index_names E (<[tab_name := erase_index pos tab]> (DbMeta.tabs_ (db_ w)))).
  { rewrite index_names_insert, (index_names_lookup E _ _ _ Htab).
    assert (Hown : table_index_names E tab_name tab !! pos = Some key).
    { unfold table_index_names. rewrite list_lookup_fmap, Hpos. simpl.
      unfold get_index_name_cols. by rewrite Hnames. }
    rewrite (delete_Permutation _ _ _ Hown) at 1.
    unfold table_index_names. simpl. by rewrite list_fmap_delete. }
  rewrite Hperm in Hnd, Hset.
  apply NoDup_cons in Hnd as [Hfresh Hnd].
  rewrite list_to_set_cons in Hset.
  rewrite dom_delete_L, <- Hset.
  repeat split; try done.
  - apply set_eq. intros x.
    rewrite elem_of_difference, elem_of_union, elem_of_singleton, !elem_of_list_to_set.
    split; [intros Hx | intros [[-> | Hx] Hnot]]; [| done | done].
    split; [by right | by intros ->].
  - by apply map_Forall_delete.
Qed.

(** C1 (amended): from a state in which I1 and I2 hold, every returning
    create_table, drop_table and drop_index (by names or by column metadata)
    leaves I1 and I2 in force; so does every returning create_index, provided
    the index store holds a file for each registered index identity and the
    table is in the schema or the column list is not empty. *)
Theorem structural_requests_preserve_I1_I2 E op w w' :
  structural op = true →
  create_index_grounded w op →
  I1 w → I2 E w → run_op E op w = Ok tt w' → I1 w' ∧ I2 E w'.
Proof.
  intros Hop Hguard HI1 HI2 Hrun. destruct op; try discriminate Hop.
  - by eapply create_table_preserves.
  - by eapply drop_table_preserves.
  - destruct Hguard. by eapply create_index_preserves.
  - by eapply drop_index_preserves.
  - simpl in Hrun. rewrite drop_index_cols_as_names in Hrun.
    by eapply drop_index_preserves.
Qed.

Lemma I1_shop_with_orders : I1 shop_with_orders.
Proof.
  split; [vm_compute; reflexivity |].
  apply (bool_decide_unpack _). vm_compute. exact I.
Defined.

Lemma I2_shop_with_orders : I2 quiet shop_with_orders.
Proof.
  split; [| split].
  - apply (bool_decide_unpack _). vm_compute. exact I.
  - vm_compute. reflexivity.
  - apply (bool_decide_unpack _). vm_compute. exact I.
Defined.

Lemma store_has_registered_shop_with_orders : store_has_registered shop_with_orders.
Proof.
  intros k Hk. exfalso. revert Hk.
  assert (ihs_ shop_with_orders = ∅) as -> by (vm_compute; reflexivity).
  apply not_elem_of_empty.
Defined.

Lemma structural_requests_preserve_I1_I2_witness :
  I1 shop_with_index ∧ I2 quiet shop_with_index.
Proof.
  apply (structural_requests_preserve_I1_I2 quiet (CreateIndex "orders" ["id"])
           shop_with_orders shop_with_index).
  - reflexivity.
  - split; [apply store_has_registered_shop_with_orders | left; discriminate].
  - apply I1_shop_with_orders.
  - apply I2_shop_with_orders.
  - vm_compute. reflexivity.
Defined.

(** C1 as stated fails: with I1 and I2 in force but the file of the index
    [orders(id)] gone from the database directory, [create_index] passes its
    [exists] guard and returns; [emplace] keeps the one registered handle
    while a second IndexMeta of the same identity is appended, so the
    IndexMetas and the handles no longer correspond one to one. *)
Lemma create_index_duplicates_lost_index :
  ¬ preserves_I1_I2 quiet (CreateIndex "orders" ["id"]).
Proof.
  intros Hspec.
  assert (HI1 : I1 shop_index_file_lost).
  { split; [vm_compute; reflexivity |].
    apply (bool_decide_unpack _). vm_compute. exact I. }
  assert (HI2 : I2 quiet shop_index_file_lost).
  { split; [| split].
    - apply (bool_decide_unpack _). vm_compute. exact I.
    - vm_compute. reflexivity.
    - apply (bool_decide_unpack _). vm_compute. exact I. }
  assert (Hrun : ∃ w', create_index quiet "orders" ["id"] shop_index_file_lost = Ok tt w' ∧
            index_names quiet (DbMeta.tabs_ (db_ w')) = ["orders_id.idx"; "orders_id.idx"]).
  { eexists. split; vm_compute; reflexivity. }
  destruct Hrun as (w' & Hrun & Hnames).
  destruct (Hspec _ _ HI1 HI2 Hrun) as [_ [Hnodup _]].
  rewrite Hnames in Hnodup. apply NoDup_cons in Hnodup as [Hfresh _].
  apply Hfresh. left.
Qed.

(** [create_index] on a table that is not in the schema, with no column to
    resolve: [db_.tabs_[tab_name]] makes an entry for the table, which has
    no record-file handle. *)
Lemma create_index_ghost_table :
  I1 shop_opened ∧ I2 quiet shop_opened ∧
  ∃ w', create_index quiet "ghost" [] shop_opened = Ok tt w' ∧
        is_table (db_ w') "ghost" = true ∧ fhs_ w' !! "ghost" = None ∧ ¬ I1 w'.
Proof.
  split; [| split].
  - split; [vm_compute; reflexivity |].
    apply (bool_decide_unpack _). vm_compute. exact I.
  - split; [| split].
    + apply (bool_decide_unpack _). vm_compute. exact I.
    + vm_compute. reflexivity.
    + apply (bool_decide_unpack _). vm_compute. exact I.
  - eexists. split; [vm_compute; reflexivity |].
    split; [vm_compute; reflexivity |]. split; [vm_compute; reflexivity |].
    intros [Hdom _]. vm_compute in Hdom. discriminate Hdom.
Qed.

(** ** C2, continued: an instance, and the overflow *)

Lemma create_table_offset_law_witness :
  ∃ w', create_table quiet "orders" orders_cols shop_opened = Ok tt w' ∧
        (∃ tab, DbMeta.tabs_ (db_ w') !! "orders" = Some tab ∧ offset_law orders_cols tab) ∧
        trace w' = trace shop_opened ++ [RmCreateFile "orders" 8; RmOpenFile "orders"].
Proof.
  eexists. split; [vm_compute; reflexivity |].
  apply (create_table_offset_law quiet "orders" orders_cols shop_opened).
  - intros [|[|[|n]]]; vm_compute; split; discriminate.
  - vm_compute. reflexivity.
Defined.

(** C2 as stated fails: for the columns [a] of length 2147483647 and [b] of
    length 1 the running offset wraps; the record size handed to the record
    store is -2147483648, not the sum 2147483648. *)
Lemma create_table_offset_overflow :
  ¬ create_table_lays_out quiet "t" overflowing_cols shop_opened.
Proof.
  intros Hspec.
  assert (Hrun : ∃ w', create_table quiet "t" overflowing_cols shop_opened = Ok tt w' ∧
            trace w' = trace shop_opened ++ [RmCreateFile "t" (-2147483648); RmOpenFile "t"]).
  { eexists. split; vm_compute; reflexivity. }
  destruct Hrun as (w' & Hrun & Htrace).
  destruct (Hspec w' Hrun) as [_ Htrace']. rewrite Htrace in Htrace'.
  apply app_inv_head in Htrace'. vm_compute in Htrace'. discriminate Htrace'.
Qed.

(** ** C3: create/drop symmetry *)

Lemma create_then_drop_restores_unregistered E tab_name col_defs w :
  fhs_ w !! tab_name = None →
  create_drop_restores E tab_name col_defs w.
Proof.
  intros Hfhs w' Hrun. inv_run.
  match goal with H : create_table _ _ _ _ = Ok _ _ |- _ =>
    destruct a; apply create_table_Ok in H as (Hfresh & Hdb1 & Hfhs1 & Hihs1) end.
  apply drop_table_Ok in Hrun as (tab & Htab & Hdb & Hfhs' & Hihs).
  rewrite Hdb1 in Htab, Hdb. simpl in Htab, Hdb.
  rewrite lookup_insert_eq in Htab. injection Htab as <-.
  rewrite Hdb, Hfhs', Hihs, Hfhs1, Hihs1.
  unfold emplace. rewrite Hfhs.
  rewrite !delete_insert_id by done.
  by destruct (db_ w).
Qed.

(** C3: in every state of the manager (the table names of the schema are the
    names registered in the table-handle registry, I1) in which table T does
    not exist, a returning create_table(T, cols) followed by a returning
    drop_table(T) leaves the schema, the table-handle registry and the
    index-handle registry as they were. *)
Theorem create_then_drop_restores E tab_name col_defs w :
  I1 w →
  is_table (db_ w) tab_name = false →
  create_drop_restores E tab_name col_defs w.
Proof.
  intros [Hdom _] Hfresh. apply create_then_drop_restores_unregistered.
  apply not_elem_of_dom. rewrite <- Hdom. apply not_elem_of_dom.
  unfold is_table in Hfresh. apply bool_decide_eq_false in Hfresh.
  by apply eq_None_not_Some.
Qed.

Lemma create_then_drop_restores_witness :
  create_drop_restores quiet "orders" orders_cols shop_opened ∧
  ∃ w', (create_table quiet "orders" orders_cols ;; drop_table quiet "orders") shop_opened
        = Ok tt w'.
Proof.
  split.
  - apply (create_then_drop_restores quiet "orders" orders_cols shop_opened).
    + split; [vm_compute; reflexivity |].
      apply (bool_decide_unpack _). vm_compute. exact I.
    + vm_compute. reflexivity.
  - eexists. vm_compute. reflexivity.
Defined.

(** ** C4: the two shapes of [drop_index] *)

(** C4: [drop_index] by column metadata and [drop_index] by the names of
    those columns resolve the same index identity and are the same
    computation: from every state they give the same outcome, the same
    schema, registries, files and trace. *)
Theorem drop_index_shapes_agree E tab_name cols w :
  get_index_name_cols E tab_name cols = get_index_name E tab_name (names_of cols) ∧
  drop_index_cols E tab_name cols w = drop_index E tab_name (names_of cols) w.
Proof. split; [done | by rewrite drop_index_cols_as_names]. Qed.

(** ** C5: [open_db] swallows what goes wrong *)

Lemma open_db_body_missing_directory E db_name w :
  resolve (cwd w) db_name ∉ dirs w →
  open_db_body E db_name w = Throw UnixError w.
Proof.
  intros Hmissing. unfold open_db_body, chdir, mbind, M_bind.
  by rewrite decide_False by done.
Qed.


















(** ** C6: [close_db] on a closed manager *)

Lemma close_db_closed E w :
  closed w → close_db E w = Ok tt (rewrite_meta_empty E w).
Proof.
  intros (Hdb & Hfhs & Hihs).
  unfold close_db, flush_meta, ofstream_write, mbind, M_bind, gets, modify. simpl.
  rewrite Hfhs, map_to_list_empty. simpl.
  rewrite Hihs, map_to_list_empty. simpl.
  unfold rewrite_meta_empty, meta_path, empty_db.
  destruct w; simpl in *; subst. reflexivity.
Qed.

Lemma close_db_Ok_closed E w u w1 :
  close_db E w = Ok u w1 → closed w1.
Proof.
  intros Hrun. unfold close_db in Hrun. unfold_collaborators Hrun. inv_run.
  done.
Qed.

(** C6 (amended): on a manager with no database open, [close_db] makes no
    call to the stores and leaves the schema, the registries, the working
    directory and the trace as they are, but it overwrites the metadata file
    of the current directory with the empty schema.  So a second [close_db]
    right after a returning one leaves the in-memory state of the first and
    replaces the metadata the first one had written by the empty schema. *)
Theorem close_db_when_closed E w :
  (closed w → close_db E w = Ok tt (rewrite_meta_empty E w)) ∧
  (∀ w1, close_db E w = Ok tt w1 →
         closed w1 ∧
         (close_db E ;; close_db E) w = Ok tt (rewrite_meta_empty E w1)).
Proof.
  split; [apply close_db_closed |].
  intros w1 Hrun. pose proof (close_db_Ok_closed _ _ _ _ Hrun) as Hclosed.
  split; [done |].
  apply bind_Ok. exists tt, w1. split; [done | by apply close_db_closed].
Qed.

Lemma close_db_when_closed_witness :
  close_db quiet shop_closed = Ok tt (rewrite_meta_empty quiet shop_closed) ∧
  (close_db quiet ;; close_db quiet) shop_with_orders
    = Ok tt (rewrite_meta_empty quiet shop_closed).
Proof.
  split.
  - destruct (close_db_when_closed quiet shop_closed) as [Hidle _].
    apply Hidle. vm_compute. repeat split.
  - destruct (close_db_when_closed quiet shop_with_orders) as [_ Htwice].
    apply Htwice. vm_compute. reflexivity.
Defined.

(** C6 as stated fails: after [close_db] has persisted the schema of [shop]
    and cleared the manager, a second [close_db] is not idle; it replaces the
    persisted schema by the empty one, so closing twice is not closing
    once. *)
Lemma close_db_again_erases_metadata :
  closed shop_closed ∧
  ¬ close_db_idle_when_closed quiet shop_closed ∧
  ¬ close_db_idempotent quiet shop_with_orders.
Proof.
  split; [vm_compute; repeat split |]. split.
  - intros Hspec.
    assert (Hfile : files (final_world (close_db quiet shop_closed)) !! ["shop"; "db.meta"]
                    ≠ files shop_closed !! ["shop"; "db.meta"]).
    { vm_compute. intros Heq. discriminate Heq. }
    apply Hfile. rewrite Hspec; [reflexivity |]. vm_compute. repeat split.
  - unfold close_db_idempotent. intros Hspec.
    assert (Hfile :
      files (final_world ((close_db quiet ;; close_db quiet) shop_with_orders))
            !! ["shop"; "db.meta"]
      ≠ files (final_world (close_db quiet shop_with_orders)) !! ["shop"; "db.meta"]).
    { vm_compute. intros Heq. discriminate Heq. }
    apply Hfile. by rewrite Hspec.
Qed.

(** ** C7: [drop_table] and the metadata file *)

(** C7 fails on the code: after a returning [drop_table] of [orders] the
    schema in memory has no table, while the metadata file still describes
    [orders]; [drop_table] has no persistence step. *)
Theorem drop_table_leaves_metadata_stale :
  ∃ w' m,
    drop_table quiet "orders" shop_with_orders = Ok tt w' ∧
    DbMeta.tabs_ (db_ w') = ∅ ∧
    files w' !! meta_path quiet w' = Some (MetaFile m) ∧
    is_table m "orders" = true ∧
    files w' !! meta_path quiet w' = files shop_with_orders !! meta_path quiet shop_with_orders.
Proof.
  eexists _, _. split; [vm_compute; reflexivity |].
  split; [vm_compute; reflexivity |].
  split; [vm_compute; reflexivity |].
  split; vm_compute; reflexivity.
Qed.

(** ** C8: [create_index] and the indexed flag *)

Lemma log_all_app evs ev w : log_all (evs ++ [ev]) w = log ev (log_all evs w).
Proof. unfold log_all. by rewrite foldl_app. Qed.

Lemma desc_table_fields E cols w :
  for_each cols (desc_table_field E) w =
    Ok tt (log_all ((λ col, PrintRecord [ColMeta.name col; coltype2str E (ColMeta.type col);
                                         if ColMeta.index col then "YES" else "NO"]) <$> cols) w).
Proof.
  revert w. induction cols as [|col cols IH]; intros w; simpl; [done |].
  unfold mbind, M_bind. simpl. by rewrite IH.
Qed.

Lemma desc_table_prints E tab_name tab w :
  DbMeta.tabs_ (db_ w) !! tab_name = Some tab →
  desc_table E tab_name w = Ok tt (log_all (desc_rows E (TabMeta.cols tab)) w).
Proof.
  intros Htab. unfold desc_table, get_table, mbind, M_bind. rewrite Htab. simpl.
  rewrite desc_table_fields. unfold desc_rows. simpl.
  by rewrite log_all_app.
Qed.

(** C8 (amended): a returning [create_index] leaves the column list of every
    table of the schema as it was, the indexed flag of the participating
    columns included; [desc_table] prints for each table the rows of the
    columns it had before the call. *)
Theorem create_index_keeps_columns E tab_name col_names w w' :
  create_index E tab_name col_names w = Ok tt w' →
  ∀ name tab, DbMeta.tabs_ (db_ w) !! name = Some tab →
    ∃ tab', DbMeta.tabs_ (db_ w') !! name = Some tab' ∧
            TabMeta.cols tab' = TabMeta.cols tab ∧
            desc_table E name w' = Ok tt (log_all (desc_rows E (TabMeta.cols tab)) w').
Proof.
  intros Hrun name tab Htab.
  apply create_index_Ok in Hrun as (_ & _ & im & _ & Hdb & _ & _).
  assert (Hlook : ∃ tab', DbMeta.tabs_ (db_ w') !! name = Some tab' ∧
                          TabMeta.cols tab' = TabMeta.cols tab).
  { rewrite Hdb. simpl. destruct (decide (tab_name = name)) as [-> | Hne].
    - rewrite lookup_insert_eq, (subscript_fst_lookup _ _ _ _ Htab). by eexists.
    - rewrite lookup_insert_ne by done. by eexists. }
  destruct Hlook as (tab' & Htab' & Hcols). exists tab'.
  split; [done |]. split; [done |].
  rewrite <- Hcols. by apply desc_table_prints.
Qed.

Lemma create_index_keeps_columns_witness :
  ∃ tab', DbMeta.tabs_ (db_ shop_with_index) !! "orders" = Some tab' ∧
          ColMeta.index <$> TabMeta.cols tab' = [false; false] ∧
          (λ ev, match ev with PrintRecord row => row | _ => [] end) <$>
            drop (length (trace shop_with_index))
                 (trace (final_world (desc_table quiet "orders" shop_with_index)))
          = [[]; ["Field"; "Type"; "Index"]; []; ["id"; "INT"; "NO"]; ["total"; "INT"; "NO"]; []].
Proof.
  destruct (create_index_keeps_columns quiet "orders" ["id"] shop_with_orders shop_with_index)
    with (name := "orders") (tab := TabMeta.mk "orders" (layout "orders" 0 orders_cols) [])
    as (tab' & Htab' & Hcols & Hdesc).
  - vm_compute. reflexivity.
  - vm_compute. reflexivity.
  - exists tab'. split; [done |]. split.
    + rewrite Hcols. reflexivity.
    + rewrite Hdesc. vm_compute. reflexivity.
Defined.

(** C8 as stated fails: after [create_index] on [orders(id)] the column [id]
    is still not flagged. *)
Lemma create_index_leaves_flag_unset :
  ¬ create_index_flags_columns quiet "orders" ["id"] shop_with_orders.
Proof.
  intros Hspec.
  destruct (Hspec shop_with_index) as (tab & Htab & Hflags); [vm_compute; reflexivity |].
  assert (Hlook : ∃ tab0 col, DbMeta.tabs_ (db_ shop_with_index) !! "orders" = Some tab0 ∧
                              TabMeta.cols tab0 !! 0%nat = Some col ∧
                              ColMeta.name col = "id" ∧ ColMeta.index col = false).
  { eexists _, _. split; [vm_compute; reflexivity |].
    split; [vm_compute; reflexivity |]. split; reflexivity. }
  destruct Hlook as (tab0 & col & Htab0 & Hcol & Hname & Hflag).
  rewrite Htab in Htab0. injection Htab0 as <-.
  rewrite Hflags in Hflag; [discriminate Hflag | by eapply list_elem_of_lookup_2 |].
  rewrite Hname. apply list_elem_of_here.
Qed.

(** ** C9: [drop_index] without a registered handle *)

(** The rest of [drop_index] once the stores have been called: the catalog
    lookup and the removal of the IndexMeta. *)
Lemma drop_index_finish_frame tab_name col_names w :
  let r := (tab ← get_table tab_name;
            index_meta ← get_index_meta tab col_names;
            tab ← get_table tab_name;
            modify (set_tabs_ <[tab_name := erase_index index_meta tab]>)) w in
  trace (final_world r) = trace w ∧ files (final_world r) = files w ∧
  ihs_ (final_world r) = ihs_ w ∧
  (returns r = true ↔ catalog_has_index w tab_name col_names).
Proof.
  intros r. subst r.
  unfold catalog_has_index, get_table, get_index_meta, mbind, M_bind.
  destruct (DbMeta.tabs_ (db_ w) !! tab_name) as [tab|] eqn:Htab; simpl.
  - destruct (list_find _ _) as [[pos index]|] eqn:Hfind; simpl.
    + rewrite Htab. simpl. split; [done |]. split; [done |]. split; [done |].
      split; [intros _ | done].
      apply list_find_Some in Hfind as (Hpos & Hnames & _).
      exists tab, index. split; [done |]. split; [by eapply list_elem_of_lookup_2 | done].
    + split; [done |]. split; [done |]. split; [done |].
      split; [done |]. intros (tab' & index & Htab' & Hin & Hnames).
      injection Htab' as <-.
      apply list_find_None in Hfind. rewrite Forall_forall in Hfind.
      by destruct (Hfind index Hin).
  - split; [done |]. split; [done |]. split; [done |].
    split; [done |]. by intros (tab' & index & Htab' & _).
Qed.

(** C9 (amended): [drop_index] does not test whether a handle is registered.
    When none is, the inserting lookup [ihs_[index_name]] yields a null
    handle, and the first thing [drop_index] does is pass it to
    [close_index].  If the index store returns from that call and from
    [destroy_index], the index file is gone, the registry is as before, and
    the call fails only afterwards, at the catalog lookup, and only if the
    catalog has no such index. *)
Theorem drop_index_passes_null_handle E tab_name col_names w :
  ihs_ w !! get_index_name E tab_name col_names = None →
  (∃ rest, trace (final_world (drop_index E tab_name col_names w))
           = trace w ++ IxCloseIndex None :: rest) ∧
  (refuses E (with_null_entry (get_index_name E tab_name col_names) w)
             (IxCloseIndex None) = false →
   refuses E (log (IxCloseIndex None)
                  (with_null_entry (get_index_name E tab_name col_names) w))
             (IxDestroyIndex tab_name col_names) = false →
   trace (final_world (drop_index E tab_name col_names w))
     = trace w ++ [IxCloseIndex None; IxDestroyIndex tab_name col_names] ∧
   files (final_world (drop_index E tab_name col_names w))
     = delete (cwd w ++ [get_index_name E tab_name col_names]) (files w) ∧
   ihs_ (final_world (drop_index E tab_name col_names w)) = ihs_ w ∧
   (returns (drop_index E tab_name col_names w) = true ↔
    catalog_has_index w tab_name col_names)).
Proof.
  intros Hnone.
  set (index_name := get_index_name E tab_name col_names) in *.
  set (w1 := with_null_entry index_name w).
  unfold drop_index. fold index_name.
  rewrite (bind_run _ _ w None w1)
    by (unfold ihs_subscript, subscript; by rewrite Hnone).
  destruct (refuses E w1 (IxCloseIndex None)) eqn:Hclose.
  { rewrite (bind_throw _ _ w1 (StoreError (IxCloseIndex None)) (log (IxCloseIndex None) w1))
      by (unfold ix_close_index, call; by rewrite Hclose).
    simpl. split; [by exists [] | done]. }
  rewrite (bind_run _ _ w1 tt (log (IxCloseIndex None) w1))
    by (unfold ix_close_index, call; by rewrite Hclose).
  set (w2 := log (IxCloseIndex None) w1).
  set (destroy := IxDestroyIndex tab_name col_names).
  destruct (refuses E w2 destroy) eqn:Hdestroy.
  { rewrite (bind_throw _ _ w2 (StoreError destroy) (log destroy w2))
      by (unfold ix_destroy_index, call; fold destroy; by rewrite Hdestroy).
    simpl. rewrite <- (assoc_L (++)). split; [by eexists | done]. }
  rewrite (bind_run _ _ w2 tt
             (set_files (delete (cwd w ++ [index_name])) (log destroy w2)))
    by (unfold ix_destroy_index, call; fold destroy; by rewrite Hdestroy).
  rewrite (bind_run _ _ _ tt
             (set_ihs_ (delete index_name)
                (set_files (delete (cwd w ++ [index_name])) (log destroy w2))))
    by done.
  match goal with |- context [final_world (?m ?w3)] =>
    destruct (drop_index_finish_frame tab_name col_names w3)
      as (Htrace & Hfiles & Hihs & Hret)
  end.
  rewrite Htrace, Hfiles, Hihs. simpl.
  rewrite <- (assoc_L (++)). simpl.
  split; [by eexists |]. intros _ _.
  split; [done |]. split; [done |].
  split; [by rewrite delete_insert_id |].
  rewrite Hret. unfold catalog_has_index. simpl. done.
Qed.

Lemma drop_index_passes_null_handle_witness :
  trace (final_world (drop_index quiet "orders" ["id"] shop_handle_lost))
    = trace shop_handle_lost ++ [IxCloseIndex None; IxDestroyIndex "orders" ["id"]] ∧
  returns (drop_index quiet "orders" ["id"] shop_handle_lost) = true.
Proof.
  destruct (drop_index_passes_null_handle quiet "orders" ["id"] shop_handle_lost)
    as [_ Haccepted]; [vm_compute; reflexivity |].
  destruct Haccepted as (Htrace & _ & _ & Hreturns); [reflexivity | reflexivity |].
  split; [exact Htrace |].
  apply Hreturns. eexists _, _.
  split; [vm_compute; reflexivity |]. split; [apply list_elem_of_here | reflexivity].
Defined.

(** C9 as stated fails: dropping an index of [orders] that was never created
    calls [close_index] with the null handle and [destroy_index] before it
    fails at the catalog lookup. *)
Lemma drop_index_unregistered_calls_store :
  ¬ drop_index_checks_handle quiet "orders" ["id"] shop_with_orders.
Proof.
  intros Hspec. destruct Hspec as [e Hthrow]; [vm_compute; reflexivity |].
  apply (f_equal (λ r, trace (final_world r))) in Hthrow.
  vm_compute in Hthrow. discriminate Hthrow.
Qed.

(** ** C10: the working directory *)

Section keeps.
Context {B : Type} (proj : World → B).
Hypothesis proj_log : ∀ ev w, proj (log ev w) = proj w.

Lemma keeps_ret {A} (a : A) : keeps proj (mret a).
Proof. by intros w. Qed.

Lemma keeps_throw {A} e : keeps proj (throw e : M A).
Proof. by intros w. Qed.

Lemma keeps_gets {A} (f : World → A) : keeps proj (gets f).
Proof. by intros w. Qed.

Lemma keeps_modify f : (∀ w, proj (f w) = proj w) → keeps proj (modify f).
Proof. intros Hf w. apply Hf. Qed.

Lemma keeps_bind {A C} (m : M A) (f : A → M C) :
  keeps proj m → (∀ a, keeps proj (f a)) → keeps proj (m ≫= f).
Proof.
  intros Hm Hf w. unfold mbind, M_bind. specialize (Hm w).
  destruct (m w) as [a w1|e w1]; simpl in *; [| done].
  by rewrite Hf.
Qed.

Lemma keeps_call E ev eff : (∀ w, proj (eff w) = proj w) → keeps proj (call E ev eff).
Proof.
  intros Heff w. unfold call. destruct (refuses E w ev); simpl; [done |].
  by rewrite Heff.
Qed.

Lemma keeps_system E cmd eff : (∀ w, proj (eff w) = proj w) → keeps proj (system E cmd eff).
Proof.
  intros Heff w. unfold system. destruct (refuses E w (System cmd)); simpl; [done |].
  by rewrite Heff.
Qed.

Lemma keeps_for_each {A} (l : list A) (body : A → M unit) :
  (∀ x, keeps proj (body x)) → keeps proj (for_each l body).
Proof.
  intros Hbody. induction l as [|x l IH]; simpl; [apply keeps_ret |].
  apply keeps_bind; [done | by intros _].
Qed.

Lemma keeps_collect {A C} (l : list A) (body : A → M C) :
  (∀ x, keeps proj (body x)) → keeps proj (collect l body).
Proof.
  intros Hbody. induction l as [|x l IH]; simpl; [apply keeps_ret |].
  apply keeps_bind; [done | intros y].
  apply keeps_bind; [done | intros ys]. apply keeps_ret.
Qed.

Lemma keeps_try_catch {A} (body : M A) handler :
  keeps proj body → (∀ e, keeps proj (handler e)) → keeps proj (try_catch body handler).
Proof.
  intros Hbody Hhandler w. unfold try_catch. specialize (Hbody w).
  destruct (body w) as [a w1|e w1]; simpl in *; [done |].
  by rewrite Hhandler.
Qed.

End keeps.

Ltac keeps_step :=
  first
    [ apply keeps_bind; [| intros ?]
    | apply keeps_ret
    | apply keeps_throw
    | apply keeps_gets
    | apply keeps_modify; intros ?; reflexivity
    | apply keeps_call; [intros ? ?; reflexivity | intros ?; reflexivity]
    | apply keeps_system; [intros ? ?; reflexivity | intros ?; reflexivity]
    | apply keeps_for_each; intros ?
    | apply keeps_collect; intros ?
    | match goal with
      | |- keeps _ (if ?b then _ else _) => destruct b
      | |- keeps _ (match ?x with _ => _ end) => destruct x
      | |- keeps _ (let '(_, _) := ?x in _) => destruct x
      end ].

Ltac keeps_tac := intros; repeat keeps_step.

Lemma keeps_cwd_subscripts k :
  keeps cwd (fhs_subscript k) ∧ keeps cwd (ihs_subscript k) ∧ keeps cwd (tabs_subscript k).
Proof.
  repeat split; intros w.
  - unfold fhs_subscript. by destruct (subscript _ _ _).
  - unfold ihs_subscript. by destruct (subscript _ _ _).
  - unfold tabs_subscript. by destruct (subscript _ _ _).
Qed.

Lemma keeps_cwd_get_table tab_name : keeps cwd (get_table tab_name).
Proof. intros w. unfold get_table. by destruct (_ !! _). Qed.

Lemma keeps_cwd_stays E op : enters_directory op = false → keeps cwd (run_op E op).
Proof.
  pose proof keeps_cwd_subscripts as Hsub.
  pose proof keeps_cwd_get_table as Hget.
  intros Hop. destruct op; try discriminate Hop; simpl.
  - (* drop_db *)
    unfold drop_db, is_dir. keeps_tac.
  - unfold flush_meta, ofstream_write. keeps_tac.
  - unfold close_db, flush_meta, ofstream_write, close_db_file, close_db_index,
      rm_close_file, ix_close_index. keeps_tac.
  - unfold show_tables, show_tables_entry, fstream_append, print_separator, print_record.
    keeps_tac.
  - unfold desc_table, desc_table_field, print_separator, print_record.
    keeps_tac; apply Hget.
  - unfold create_table, rm_create_file, rm_open_file, flush_meta, ofstream_write.
    keeps_tac; apply Hsub.
  - unfold drop_table, drop_table_index, rm_close_file, rm_destroy_file,
      ix_close_index, ix_destroy_index_cols, ix_destroy_index.
    keeps_tac; apply Hsub.
  - unfold create_index, index_column, get_col, ix_exists, ix_create_index, ix_open_index.
    keeps_tac; first [apply Hsub | apply Hget].
  - unfold drop_index, get_index_meta, ix_close_index, ix_destroy_index.
    keeps_tac; first [apply Hsub | apply Hget].
  - unfold drop_index_cols, get_index_meta, ix_close_index, ix_destroy_index_cols,
      ix_destroy_index.
    keeps_tac; first [apply Hsub | apply Hget].
Qed.

Lemma flush_meta_writes E w :
  flush_meta E w = Ok tt (set_files <[meta_path E w := MetaFile (db_ w)]> w).
Proof. reflexivity. Qed.

Lemma close_db_files E w :
  files (final_world (close_db E w)) = <[meta_path E w := MetaFile (db_ w)]> (files w).
Proof.
  unfold close_db. rewrite (bind_run _ _ _ _ _ (flush_meta_writes E w)).
  match goal with |- files (final_world (?m ?w1)) = _ =>
    assert (Hkeeps : keeps files m); [| by rewrite Hkeeps]
  end.
  unfold close_db_file, close_db_index, rm_close_file, ix_close_index. keeps_tac.
Qed.

Lemma plain_component_not_parent name : plain_component name = true → name ≠ "..".
Proof. intros Hplain ->. vm_compute in Hplain. discriminate Hplain. Qed.

Lemma resolve_plain from name : name ≠ ".." → resolve from name = from ++ [name].
Proof. intros Hname. unfold resolve. by rewrite decide_False. Qed.

Lemma open_db_enters E db_name w :
  resolve (cwd w) db_name ∈ dirs w →
  ∃ w1, open_db E db_name w = Ok tt w1 ∧ cwd w1 = resolve (cwd w) db_name.
Proof.
  intros Hdir. unfold open_db, try_catch, open_db_body.
  rewrite (bind_run _ _ w true (set_cwd (resolve (cwd w) db_name) w))
    by (unfold chdir; by rewrite decide_True).
  simpl.
  match goal with |- context [match ?m ?w1 with _ => _ end] =>
    assert (Hkeeps : keeps cwd m);
      [| specialize (Hkeeps w1); destruct (m w1) as [[] w2|e w2]; simpl in Hkeeps]
  end.
  - pose proof keeps_cwd_subscripts as Hsub.
    unfold ifstream_read_db_, open_db_table, open_db_index, rm_open_file, ix_open_index.
    keeps_tac; try apply Hsub.
    intros w1. by repeat case_match.
  - by eexists.
  - by eexists.
Qed.

Lemma mkdir_effect_cwd db_name w : cwd (mkdir_effect db_name w) = cwd w.
Proof. unfold mkdir_effect. by case_decide. Qed.

Lemma create_db_cwd E db_name w :
  db_name ≠ ".." →
  match create_db E db_name w with
  | Ok _ w' => cwd w' = cwd w
  | Throw _ w' => cwd w' = cwd w ∨ cwd w' = cwd w ++ [db_name]
  end.
Proof.
  intros Hname.
  assert (Hback : ∀ from, resolve (resolve from db_name) ".." = from).
  { intros from. rewrite (resolve_plain _ _ Hname). unfold resolve. simpl.
    by rewrite removelast_last. }
  unfold create_db, is_dir, system, chdir, ofstream_write, disk_create_file, call,
    mbind, M_bind, gets, modify, throw, mret, M_ret.
  simpl.
  repeat (case_match; simpl in *; simplify_eq; auto).
  all: rewrite ?Hback, ?mkdir_effect_cwd; simpl; rewrite ?(resolve_plain _ _ Hname); auto.
Qed.

Lemma run_op_cwd_plain E op w :
  plain_name op →
  cwd w `prefix_of` cwd (final_world (run_op E op w)).
Proof.
  intros Hplain. destruct (enters_directory op) eqn:Hop.
  - destruct op; try discriminate Hop; simpl in *;
      apply plain_component_not_parent in Hplain.
    + pose proof (create_db_cwd E db_name w Hplain) as Hcwd.
      destruct (create_db E db_name w) as [u w'|e w']; simpl.
      * by rewrite Hcwd.
      * destruct Hcwd as [-> | ->]; [done | by apply prefix_app_r].
    + destruct (decide (resolve (cwd w) db_name ∈ dirs w)) as [Hdir | Hmissing].
      * destruct (open_db_enters E db_name w Hdir) as (w1 & Hrun & Hcwd).
        rewrite Hrun. simpl. rewrite Hcwd, (resolve_plain _ _ Hplain).
        by apply prefix_app_r.
      * unfold open_db, try_catch.
        by rewrite (open_db_body_missing_directory E db_name w Hmissing).
  - by rewrite (keeps_cwd_stays E op Hop w).
Qed.

Lemma run_ops_cwd_plain E ops w :
  Forall plain_name ops → cwd w `prefix_of` cwd (run_ops E ops w).
Proof.
  intros Hops. revert w. induction Hops as [|op ops Hop _ IH]; intros w; simpl; [done |].
  etrans; [by apply (run_op_cwd_plain E op) | apply IH].
Qed.

Lemma run_ops_cwd_stays E ops w :
  Forall (λ op, enters_directory op = false) ops → cwd (run_ops E ops w) = cwd w.
Proof.
  intros Hops. revert w. induction Hops as [|op ops Hop _ IH]; intros w; simpl; [done |].
  by rewrite IH, (keeps_cwd_stays E op Hop w).
Qed.

Lemma run_ops_snoc E ops op w :
  run_ops E (ops ++ [op]) w = final_world (run_op E op (run_ops E ops w)).
Proof. unfold run_ops. by rewrite fold_left_app. Qed.

(** C10 (amended): a call of [open_db] that finds the database directory,
    named by a plain directory name, leaves the process in it, and it stays
    there until another [open_db] or [create_db]: no sequence of the other
    requests moves it, whatever each of them returns or throws; after
    [close_db] the process is still in the directory of the database just
    closed, and (the requests in between naming databases by plain directory
    names) [flush_meta] and [close_db] write the metadata file there.  No
    sequence of requests that name databases by plain directory names takes
    the process back above that directory.  [create_db] with a plain name,
    when it returns, has changed back to where it started. *)
Theorem open_db_leaves_process_in_database_directory E db_name w :
  plain_component db_name = true →
  resolve (cwd w) db_name ∈ dirs w →
  ∃ w1, open_db E db_name w = Ok tt w1 ∧
    cwd w1 = cwd w ++ [db_name] ∧
    (∀ ops, Forall (λ op, enters_directory op = false) ops →
       cwd (run_ops E ops w1) = cwd w1 ∧
       cwd (run_ops E (ops ++ [CloseDb]) w1) = cwd w1 ∧
       (Forall plain_name ops →
        files (run_ops E (ops ++ [FlushMeta]) w1) !! (cwd w1 ++ [DB_META_NAME E])
          = Some (MetaFile (db_ (run_ops E ops w1))) ∧
        files (run_ops E (ops ++ [CloseDb]) w1) !! (cwd w1 ++ [DB_META_NAME E])
          = Some (MetaFile (db_ (run_ops E ops w1))))) ∧
    (∀ ops, Forall plain_name ops → cwd w1 `prefix_of` cwd (run_ops E ops w1)) ∧
    (∀ name w2 w3, plain_component name = true →
       create_db E name w2 = Ok tt w3 → cwd w3 = cwd w2).
Proof.
  intros Hname Hdir. apply plain_component_not_parent in Hname.
  destruct (open_db_enters E db_name w Hdir) as (w1 & Hrun & Hcwd).
  rewrite (resolve_plain _ _ Hname) in Hcwd.
  exists w1. split; [done |]. split; [done |]. split; [| split].
  - intros ops Hops. pose proof (run_ops_cwd_stays E ops w1 Hops) as Hstay.
    split; [done |]. rewrite !run_ops_snoc. split; [| intros _; split].
    + by rewrite (keeps_cwd_stays E CloseDb eq_refl).
    + change (run_op E FlushMeta) with (flush_meta E).
      rewrite flush_meta_writes. simpl.
      unfold meta_path. rewrite Hstay. apply lookup_insert_eq.
    + change (run_op E CloseDb) with (close_db E). rewrite close_db_files.
      unfold meta_path. rewrite Hstay. apply lookup_insert_eq.
  - intros ops Hops. by apply run_ops_cwd_plain.
  - intros name w2 w3 Hplain Hcreate. apply plain_component_not_parent in Hplain.
    pose proof (create_db_cwd E name w2 Hplain) as Hback. by rewrite Hcreate in Hback.
Qed.

Lemma open_db_leaves_process_in_database_directory_witness :
  cwd shop_opened = ["shop"] ∧
  cwd (run_ops quiet [CreateTable "orders" orders_cols; CreateIndex "orders" ["id"];
                      DropTable "orders"; CloseDb] shop_opened) = ["shop"] ∧
  cwd (run_ops quiet [CreateDb "shop"] fresh) = [].
Proof.
  destruct (open_db_leaves_process_in_database_directory quiet "shop"
              (run_ops quiet [CreateDb "shop"] fresh))
    as (w1 & Hrun & Hcwd & Hstay & _ & Hcreate).
  - reflexivity.
  - apply (bool_decide_unpack _). vm_compute. exact I.
  - assert (Hw1 : w1 = shop_opened).
    { assert (Hopen : open_db quiet "shop" (run_ops quiet [CreateDb "shop"] fresh)
                      = Ok tt shop_opened) by (vm_compute; reflexivity).
      rewrite Hopen in Hrun. by injection Hrun. }
    subst w1. split; [| split].
    + rewrite Hcwd. vm_compute. reflexivity.
    + destruct (Hstay [CreateTable "orders" orders_cols; CreateIndex "orders" ["id"];
                       DropTable "orders"]) as (_ & Hclose & _).
      * repeat constructor.
      * simpl app in Hclose. rewrite Hclose, Hcwd. vm_compute. reflexivity.
    + apply (Hcreate "shop" fresh); [reflexivity | vm_compute; reflexivity].
Defined.

(** C10 as stated fails: [open_db] of the parent directory takes the process
    back to where it was before the database was opened. *)
Lemma open_db_of_parent_goes_back :
  ¬ open_db_never_left quiet "shop" (run_ops quiet [CreateDb "shop"] fresh).
Proof.
  intros Hspec.
  apply (Hspec shop_opened) with (ops := [OpenDb ".."]).
  - vm_compute. reflexivity.
  - vm_compute. discriminate.
  - vm_compute. reflexivity.
Qed.

(** * Further properties of the member functions *)

(** ** [create_db] *)

Lemma create_db_run E db_name w :
  db_name ≠ ".." →
  create_db_can_start E db_name w →
  create_db E db_name w =
    if refuses E (db_dir_made E db_name w) (DiskCreateFile (LOG_FILE_NAME E))
    then Throw (StoreError (DiskCreateFile (LOG_FILE_NAME E)))
               (log (DiskCreateFile (LOG_FILE_NAME E)) (db_dir_made E db_name w))
    else Ok tt (created_db E db_name w).
Proof.
  intros Hname (Hfree & Hnofile & Hcwd & Hshell).
  set (made := log (System ("mkdir " +:+ db_name)) w).
  assert (Hmkdir : mkdir_effect db_name made
                   = set_dirs (λ ds, {[cwd w ++ [db_name]]} ∪ ds) made).
  { unfold mkdir_effect. simpl. rewrite (resolve_plain _ _ Hname).
    apply decide_False. intros [Hdir | [Hfile | Hgone]]; [done | | done].
    apply (proj1 (eq_None_not_Some _) Hnofile). exact Hfile. }
  unfold create_db, is_dir, system, chdir, ofstream_write, disk_create_file, call,
    mbind, M_bind, gets, modify, throw, mret, M_ret.
  rewrite (resolve_plain _ _ Hname), bool_decide_eq_false_2 by done.
  rewrite Hshell. fold made. rewrite Hmkdir. simpl.
  rewrite (resolve_plain _ _ Hname).
  rewrite decide_True by (apply elem_of_union_l, elem_of_singleton; done).
  unfold created_db, db_log_made, db_dir_made. fold made. simpl.
  destruct (refuses E _ (DiskCreateFile (LOG_FILE_NAME E))); [done |].
  assert (Hback : resolve (cwd w ++ [db_name]) ".." = cwd w)
    by (unfold resolve; simpl; apply removelast_last).
  simpl. rewrite Hback.
  rewrite decide_True by (by apply elem_of_union_r).
  simpl. by rewrite <- (assoc_L (++)).
Qed.

Lemma mkdir_effect_dirs db_name w p :
  p ∈ dirs (mkdir_effect db_name w) →
  p ∈ dirs w ∨ (p = resolve (cwd w) db_name ∧ files w !! p = None).
Proof.
  unfold mkdir_effect. case_decide as Hthere; simpl; [by left |].
  intros [->%elem_of_singleton | Hin]%elem_of_union; [right | by left].
  split; [done |]. apply eq_None_not_Some. intros Hfile. apply Hthere. right. by left.
Qed.

Lemma create_db_Ok_start E db_name w w' :
  db_name ≠ ".." →
  create_db E db_name w = Ok tt w' →
  create_db_can_start E db_name w.
Proof.
  intros Hname Hrun. unfold create_db in Hrun.
  unfold is_dir, ofstream_write, disk_create_file in Hrun. inv_run.
  apply bool_decide_eq_false in Heqb. rewrite (resolve_plain _ _ Hname) in Heqb.
  repeat match goal with
  | H : negb ?b = false |- _ => apply negb_false_iff in H; subst b
  | H : system _ _ _ _ = Ok _ _ |- _ =>
      unfold system in H; destruct (refuses E w _) eqn:Hshell; simplify_eq
  end.
  repeat match goal with
  | H : chdir _ _ = Ok true _ |- _ =>
      unfold chdir in H; case_decide; [| discriminate H]; injection H as <-
  end.
  simpl in *. rewrite ?mkdir_effect_cwd in *. simpl in *.
  rewrite (resolve_plain _ _ Hname) in *.
  match goal with H : resolve (cwd w ++ [db_name]) ".." ∈ _ |- _ =>
    unfold resolve in H; simpl in H; rewrite removelast_last in H;
    apply mkdir_effect_dirs in H as [Hcwd | [Hcwd _]]; simpl in Hcwd
  end.
  2: { rewrite (resolve_plain _ _ Hname) in Hcwd.
       apply (f_equal length) in Hcwd. rewrite length_app in Hcwd. simpl in Hcwd. lia. }
  match goal with H : cwd w ++ [db_name] ∈ dirs (mkdir_effect _ _) |- _ =>
    apply mkdir_effect_dirs in H as [Hdir | [_ Hnofile]]; simpl in *
  end; [done |].
  done.
Qed.

Lemma create_db_makes_database_facts E db_name w w' :
  db_name ≠ ".." →
  create_db E db_name w = Ok tt w' →
  create_db_can_start E db_name w ∧ w' = created_db E db_name w.
Proof.
  intros Hname Hrun.
  pose proof (create_db_Ok_start E db_name w w' Hname Hrun) as Hstart.
  rewrite (create_db_run E db_name w Hname Hstart) in Hrun.
  destruct (refuses E _ _); [discriminate Hrun |]. by injection Hrun as <-.
Qed.

(** X1: a returning [create_db] of a plain name has made the directory,
    written the metadata of the empty schema named after the database and an
    empty log file, and left the process and the manager's schema and
    registries as they were; asking for the same database again throws
    DatabaseExistsError and changes nothing. *)
Theorem create_db_makes_database E db_name w w' :
  plain_component db_name = true →
  create_db E db_name w = Ok tt w' →
  create_db_can_start E db_name w ∧
  w' = created_db E db_name w ∧
  create_db E db_name w' = Throw (DatabaseExistsError db_name) w'.
Proof.
  intros Hname Hrun. apply plain_component_not_parent in Hname.
  destruct (create_db_makes_database_facts E db_name w w' Hname Hrun) as (Hstart & ->).
  split; [done |]. split; [done |].
  unfold create_db, is_dir, mbind, M_bind, gets. simpl.
  rewrite (resolve_plain _ _ Hname), bool_decide_eq_true_2; [done |].
  apply elem_of_union_l. by apply elem_of_singleton.
Qed.

Lemma create_db_makes_database_witness :
  run_ops quiet [CreateDb "shop"] fresh = created_db quiet "shop" fresh ∧
  create_db quiet "shop" (created_db quiet "shop" fresh)
    = Throw (DatabaseExistsError "shop") (created_db quiet "shop" fresh).
Proof.
  destruct (create_db_makes_database quiet "shop" fresh (run_ops quiet [CreateDb "shop"] fresh))
    as (_ & Hmade & Hagain).
  - reflexivity.
  - vm_compute. reflexivity.
  - split; [exact Hmade | by rewrite <- Hmade].
Defined.

(** X2: when the disk manager refuses to make the log file, [create_db] of a
    plain name throws from inside the new directory: the directory and its
    metadata file stay, and the process stays in the new directory. *)
Theorem create_db_stranded_by_log_failure E db_name w :
  plain_component db_name = true →
  create_db_can_start E db_name w →
  refuses E (db_dir_made E db_name w) (DiskCreateFile (LOG_FILE_NAME E)) = true →
  ∃ w', create_db E db_name w = Throw (StoreError (DiskCreateFile (LOG_FILE_NAME E))) w' ∧
        cwd w' = cwd w ++ [db_name] ∧
        dirs w' = {[cwd w ++ [db_name]]} ∪ dirs w ∧
        files w' = <[cwd w ++ [db_name; DB_META_NAME E] := MetaFile (DbMeta.mk db_name ∅)]>
                     (files w).
Proof.
  intros Hname Hstart Hrefuses. apply plain_component_not_parent in Hname.
  rewrite (create_db_run E db_name w Hname Hstart), Hrefuses.
  eexists. split; [done |]. simpl. split; [done |]. split; [done |].
  by rewrite <- (assoc_L (++)).
Qed.

Lemma create_db_stranded_by_log_failure_witness :
  ∃ w', create_db disk_full "shop" fresh = Throw (StoreError (DiskCreateFile "db.log")) w' ∧
        cwd w' = ["shop"] ∧
        files w' = {[ ["shop"; "db.meta"] := MetaFile (DbMeta.mk "shop" ∅) ]}.
Proof.
  destruct (create_db_stranded_by_log_failure disk_full "shop" fresh)
    as (w' & Hrun & Hcwd & _ & Hfiles).
  - reflexivity.
  - split; [apply (bool_decide_unpack _); vm_compute; exact I |].
    split; [reflexivity |].
    split; [apply (bool_decide_unpack _); vm_compute; exact I | reflexivity].
  - reflexivity.
  - exists w'. split; [exact Hrun |]. split; [exact Hcwd |]. rewrite Hfiles. reflexivity.
Defined.

(** X3: on a manager that has nothing open, [open_db] right after a
    returning [create_db] of a plain name loads the empty schema named after
    the database: the process enters the new directory, [db_] becomes that
    schema, no handle is opened or registered and no store is called, and
    the manager is in a state that satisfies I1 and I2. *)
Theorem create_db_then_open_db E db_name w w' :
  plain_component db_name = true →
  DB_META_NAME E ≠ LOG_FILE_NAME E →
  closed w →
  create_db E db_name w = Ok tt w' →
  open_db E db_name w' =
    Ok tt (set_db_ (λ _, DbMeta.mk db_name ∅) (set_cwd (cwd w ++ [db_name]) w')) ∧
  I1 (set_db_ (λ _, DbMeta.mk db_name ∅) (set_cwd (cwd w ++ [db_name]) w')) ∧
  I2 E (set_db_ (λ _, DbMeta.mk db_name ∅) (set_cwd (cwd w ++ [db_name]) w')).
Proof.
  intros Hname Hfiles (_ & Hfhs & Hihs) Hrun. apply plain_component_not_parent in Hname.
  destruct (create_db_makes_database_facts E db_name w w' Hname Hrun) as (_ & ->).
  split; [| split].
  2: { unfold I1. simpl. rewrite Hfhs. split; [by rewrite !dom_empty_L |].
       apply map_Forall_empty. }
  2: { unfold I2, index_names. simpl. rewrite Hihs, map_to_list_empty. simpl.
       split; [apply NoDup_nil_2 |]. split; [by rewrite dom_empty_L |].
       apply map_Forall_empty. }
  unfold open_db, try_catch, open_db_body.
  rewrite (bind_run _ _ _ true (set_cwd (cwd w ++ [db_name]) (created_db E db_name w))).
  2: { unfold chdir. simpl. rewrite (resolve_plain _ _ Hname).
       rewrite decide_True; [done |]. apply elem_of_union_l. by apply elem_of_singleton. }
  simpl.
  rewrite (bind_run _ _ _ tt (set_db_ (λ _, DbMeta.mk db_name ∅)
                               (set_cwd (cwd w ++ [db_name]) (created_db E db_name w)))).
  2: { unfold ifstream_read_db_. simpl.
       rewrite <- !(assoc_L (++)). simpl.
       rewrite lookup_insert_ne by (intros Heq; simplify_list_eq; congruence).
       by rewrite lookup_insert_eq. }
  unfold mbind, M_bind, gets. simpl.
  unfold in_key_order. by rewrite map_to_list_empty.
Qed.

Lemma create_db_then_open_db_witness :
  open_db quiet "shop" (run_ops quiet [CreateDb "shop"] fresh) = Ok tt shop_opened ∧
  db_ shop_opened = DbMeta.mk "shop" ∅ ∧ cwd shop_opened = ["shop"] ∧
  trace shop_opened = [System "mkdir shop"; DiskCreateFile "db.log"].
Proof.
  split.
  - destruct (create_db_then_open_db quiet "shop" fresh
                (run_ops quiet [CreateDb "shop"] fresh)) as [Hopen _].
    + reflexivity.
    + discriminate.
    + vm_compute. repeat split.
    + vm_compute. reflexivity.
    + rewrite Hopen. vm_compute. reflexivity.
  - vm_compute. repeat split.
Defined.

(** ** What a request leaves alone *)

Lemma keeps_chdir {B} (proj : World → B) name :
  (∀ p w, proj (set_cwd p w) = proj w) → keeps proj (chdir name).
Proof. intros Hproj w. unfold chdir. case_decide; simpl; [apply Hproj | done]. Qed.

Lemma keeps_manager_state_outside E op :
  outside_schema op = true → keeps manager_state (run_op E op).
Proof.
  intros Hop. destruct op; try discriminate Hop; simpl.
  - unfold create_db, is_dir, ofstream_write, disk_create_file. keeps_tac.
    + apply keeps_system; [done |]. intros w. unfold mkdir_effect. by case_decide.
    + by apply keeps_chdir.
    + by apply keeps_chdir.
  - unfold drop_db, is_dir. keeps_tac.
  - unfold flush_meta, ofstream_write. keeps_tac.
  - unfold show_tables, show_tables_entry, fstream_append, print_separator, print_record.
    keeps_tac.
  - unfold desc_table, desc_table_field, print_separator, print_record.
    keeps_tac. intros w. unfold get_table. by destruct (_ !! _).
Qed.

Lemma keeps_files_desc_table E tab_name : keeps files (desc_table E tab_name).
Proof.
  unfold desc_table, desc_table_field, print_separator, print_record.
  keeps_tac. intros w. unfold get_table. by destruct (_ !! _).
Qed.

(** X4: creating or dropping a database, flushing the metadata and the two
    listings never change the schema in memory or the handle registries,
    however they end; in particular [drop_db] of the database that is open
    leaves its handles registered.  [desc_table] does not write any file. *)
Theorem outside_requests_leave_manager_state E op w :
  outside_schema op = true →
  manager_state (final_world (run_op E op w)) = manager_state w ∧
  (∀ tab_name, op = DescTable tab_name → files (final_world (run_op E op w)) = files w).
Proof.
  intros Hop. split; [by apply keeps_manager_state_outside |].
  intros tab_name ->. apply keeps_files_desc_table.
Qed.

Lemma outside_requests_leave_manager_state_witness :
  manager_state (final_world (run_op quiet (DropDb "shop") shop_seen_from_parent))
    = manager_state shop_seen_from_parent ∧
  files (final_world (run_op quiet (DropDb "shop") shop_seen_from_parent)) = ∅.
Proof.
  split.
  - exact (proj1 (outside_requests_leave_manager_state quiet (DropDb "shop")
                    shop_seen_from_parent eq_refl)).
  - vm_compute. reflexivity.
Defined.

(** ** [close_db] *)

Lemma close_db_file_loop E l w u w' :
  for_each l (close_db_file E) w = Ok u w' →
  w' = log_all ((λ entry, RmCloseFile entry.2) <$> l) w.
Proof.
  revert w. induction l as [|entry l IH]; intros w Hrun; simpl in Hrun; inv_run; [done |].
  match goal with H : close_db_file _ _ _ = Ok _ _ |- _ =>
    unfold close_db_file, rm_close_file in H; inv_run end.
  by apply IH in Hrun.
Qed.

Lemma close_db_index_loop E l w u w' :
  for_each l (close_db_index E) w = Ok u w' →
  w' = log_all ((λ entry, IxCloseIndex entry.2) <$> l) w.
Proof.
  revert w. induction l as [|entry l IH]; intros w Hrun; simpl in Hrun; inv_run; [done |].
  match goal with H : close_db_index _ _ _ = Ok _ _ |- _ =>
    unfold close_db_index, ix_close_index in H; inv_run end.
  by apply IH in Hrun.
Qed.

Lemma log_all_trace evs w : trace (log_all evs w) = trace w ++ evs.
Proof.
  revert w. induction evs as [|ev evs IH]; intros w; simpl; [by rewrite app_nil_r |].
  rewrite IH. simpl. by rewrite <- (assoc_L (++)).
Qed.

Lemma log_all_manager_state evs w :
  manager_state (log_all evs w) = manager_state w ∧ cwd (log_all evs w) = cwd w ∧
  dirs (log_all evs w) = dirs w ∧ files (log_all evs w) = files w.
Proof.
  revert w. induction evs as [|ev evs IH]; intros w; simpl; [done |].
  by destruct (IH (log ev w)) as (-> & -> & -> & ->).
Qed.

Lemma close_db_run E w :
  match close_db E w with
  | Ok _ w' =>
      trace w' = trace w ++ ((λ entry, RmCloseFile entry.2) <$> map_to_list (fhs_ w))
                         ++ ((λ entry, IxCloseIndex entry.2) <$> map_to_list (ihs_ w)) ∧
      closed w' ∧ cwd w' = cwd w ∧ dirs w' = dirs w
  | Throw _ w' => manager_state w' = manager_state w
  end.
Proof.
  destruct (close_db E w) as [[] w'|e w'] eqn:Hrun.
  - pose proof (close_db_Ok_closed _ _ _ _ Hrun) as Hclosed.
    unfold close_db in Hrun. unfold flush_meta, ofstream_write in Hrun. inv_run.
    repeat match goal with
    | H : for_each _ (close_db_file _) _ = Ok _ _ |- _ => apply close_db_file_loop in H
    | H : for_each _ (close_db_index _) _ = Ok _ _ |- _ => apply close_db_index_loop in H
    end.
    subst. simpl.
    repeat match goal with
    | |- context [ihs_ (log_all ?evs ?w0)] =>
        replace (ihs_ (log_all evs w0)) with (ihs_ w0)
          by (by destruct (log_all_manager_state evs w0) as [[=] _])
    end.
    rewrite !log_all_trace.
    repeat match goal with
    | |- context [cwd (log_all ?evs ?w0)] =>
        destruct (log_all_manager_state evs w0) as (_ & -> & -> & _)
    end.
    simpl. by rewrite (assoc_L (++)).
  - assert (Hkeep : match close_db E w with
                     | Ok _ _ => True
                     | Throw _ w' => manager_state w' = manager_state w
                     end); [| by rewrite Hrun in Hkeep].
    unfold close_db, flush_meta, ofstream_write, mbind, M_bind, gets, modify. simpl.
    match goal with |- context [for_each ?l (close_db_file E) ?w0] =>
      pose proof (keeps_for_each manager_state l (close_db_file E)) as Hfiles;
      specialize (Hfiles (λ entry, keeps_call manager_state (λ _ _, eq_refl) E _ id
                                     (λ _, eq_refl)) w0);
      destruct (for_each l (close_db_file E) w0) as [[] w1|e1 w1]; simpl in *; [| done]
    end.
    match goal with |- context [for_each ?l (close_db_index E) ?w0] =>
      pose proof (keeps_for_each manager_state l (close_db_index E)) as Hindexes;
      specialize (Hindexes (λ entry, keeps_call manager_state (λ _ _, eq_refl) E _ id
                                       (λ _, eq_refl)) w0);
      destruct (for_each l (close_db_index E) w0) as [[] w2|e2 w2]; simpl in *
    end; [done |].
    by rewrite Hindexes, Hfiles.
Qed.

(** X5: [close_db] first writes the schema to the metadata file of the
    current directory.  When it returns it has passed every registered
    record-file handle and after them every registered index handle to its
    store, once each, in the order in which the registry hands them out, and
    has made no other call; the manager is closed.  When a store throws on
    one of the handles, nothing is cleared: the schema and both registries
    are as before the call, the handles already closed included. *)
Theorem close_db_closes_every_handle E w :
  files (final_world (close_db E w)) = <[meta_path E w := MetaFile (db_ w)]> (files w) ∧
  match close_db E w with
  | Ok _ w' =>
      (∃ files_closed indexes_closed,
         trace w' = trace w ++ files_closed ++ indexes_closed ∧
         files_closed ≡ₚ (λ entry, RmCloseFile entry.2) <$> map_to_list (fhs_ w) ∧
         indexes_closed ≡ₚ (λ entry, IxCloseIndex entry.2) <$> map_to_list (ihs_ w)) ∧
      closed w' ∧ cwd w' = cwd w ∧ dirs w' = dirs w
  | Throw _ w' => manager_state w' = manager_state w
  end.
Proof.
  split; [apply close_db_files |].
  pose proof (close_db_run E w) as Hrun.
  destruct (close_db E w) as [[] w'|e w']; [| exact Hrun].
  destruct Hrun as (Htrace & Hclosed & Hcwd & Hdirs).
  split; [| done].
  by exists ((λ entry, RmCloseFile entry.2) <$> map_to_list (fhs_ w)),
            ((λ entry, IxCloseIndex entry.2) <$> map_to_list (ihs_ w)).
Qed.

Lemma keeps_dirs_open_db E db_name : keeps dirs (open_db E db_name).
Proof.
  unfold open_db. apply keeps_try_catch; [| intros e; unfold cout; keeps_tac].
  unfold open_db_body, open_db_table, open_db_index, rm_open_file, ix_open_index.
  keeps_tac.
  - by apply keeps_chdir.
  - intros w. unfold ifstream_read_db_. by repeat case_match.
  - intros w. unfold fhs_subscript. by destruct (subscript _ _ _).
  - intros w. unfold tabs_subscript. by destruct (subscript _ _ _).
Qed.

Lemma keeps_dirs_close_db E : keeps dirs (close_db E).
Proof.
  unfold close_db, flush_meta, ofstream_write, close_db_file, close_db_index,
    rm_close_file, ix_close_index. keeps_tac.
Qed.

(** X6: a database cannot be reopened by its name after [close_db]: the
    process is still inside the database directory, so [open_db] looks for a
    directory of that name inside it; unless there is one, it prints the
    Unix error and returns with the manager still closed. *)
Theorem reopening_after_close_db_fails E db_name w w1 w2 :
  db_name ≠ ".." →
  resolve (cwd w) db_name ∈ dirs w →
  ¬ (cwd w ++ [db_name; db_name] ∈ dirs w) →
  open_db E db_name w = Ok tt w1 →
  close_db E w1 = Ok tt w2 →
  cwd w2 = cwd w ++ [db_name] ∧
  open_db E db_name w2 = Ok tt (log (Cout (what E UnixError)) w2) ∧
  closed (log (Cout (what E UnixError)) w2).
Proof.
  intros Hname Hdir Hnested Hopen Hclose.
  destruct (open_db_enters E db_name w Hdir) as (w1' & Hopen' & Hcwd1).
  rewrite Hopen in Hopen'. injection Hopen' as <-.
  rewrite (resolve_plain _ _ Hname) in Hcwd1.
  pose proof (keeps_dirs_open_db E db_name w) as Hdirs1. rewrite Hopen in Hdirs1.
  pose proof (keeps_dirs_close_db E w1) as Hdirs2. rewrite Hclose in Hdirs2.
  pose proof (keeps_cwd_stays E CloseDb eq_refl w1) as Hcwd2. simpl in Hcwd2.
  rewrite Hclose in Hcwd2. simpl in *.
  split; [by rewrite Hcwd2 |]. split.
  - unfold open_db, try_catch. rewrite open_db_body_missing_directory; [done |].
    rewrite (resolve_plain _ _ Hname), Hcwd2, Hcwd1, Hdirs2, Hdirs1.
    by rewrite <- (assoc_L (++)).
  - by apply close_db_Ok_closed in Hclose.
Qed.

Lemma reopening_after_close_db_fails_witness :
  cwd (run_ops quiet [CreateDb "shop"; OpenDb "shop"; CloseDb] fresh) = ["shop"] ∧
  open_db quiet "shop" (run_ops quiet [CreateDb "shop"; OpenDb "shop"; CloseDb] fresh)
    = Ok tt (log (Cout "error") (run_ops quiet [CreateDb "shop"; OpenDb "shop"; CloseDb] fresh)).
Proof.
  destruct (reopening_after_close_db_fails quiet "shop"
              (run_ops quiet [CreateDb "shop"] fresh)
              (run_ops quiet [CreateDb "shop"; OpenDb "shop"] fresh)
              (run_ops quiet [CreateDb "shop"; OpenDb "shop"; CloseDb] fresh))
    as (Hcwd & Hopen & _).
  - discriminate.
  - apply (bool_decide_unpack _). vm_compute. exact I.
  - apply (bool_decide_unpack _). vm_compute. exact I.
  - vm_compute. reflexivity.
  - vm_compute. reflexivity.
  - split; [rewrite Hcwd; vm_compute; reflexivity | exact Hopen].
Defined.

(** ** [create_table] and [drop_table] *)

Lemma create_table_Ok_files E tab_name col_defs w w' :
  create_table E tab_name col_defs w = Ok tt w' →
  cwd w' = cwd w ∧
  files w' = <[meta_path E w := MetaFile (db_ w')]>
               (<[cwd w ++ [tab_name] :=
                    RecordFile (fold_left (add_col tab_name) col_defs (0, [])).1]> (files w)).
Proof.
  intros Hrun. unfold create_table in Hrun. unfold_collaborators Hrun. inv_run. done.
Qed.

(** X7: a returning [create_table] leaves the metadata file of the database
    directory holding exactly the schema that is in memory, has made the
    record file with the record size it computed, and has touched no other
    table, no other record-file handle and no index handle; the table gets a
    handle on the new record file unless some entry was already registered
    under its name. *)
Theorem create_table_persists_schema E tab_name col_defs w w' :
  create_table E tab_name col_defs w = Ok tt w' →
  files w' !! meta_path E w' = Some (MetaFile (db_ w')) ∧
  (tab_name ≠ DB_META_NAME E →
   files w' !! (cwd w ++ [tab_name])
     = Some (RecordFile (fold_left (add_col tab_name) col_defs (0, [])).1)) ∧
  (∀ name, name ≠ tab_name →
     DbMeta.tabs_ (db_ w') !! name = DbMeta.tabs_ (db_ w) !! name ∧
     fhs_ w' !! name = fhs_ w !! name) ∧
  (fhs_ w !! tab_name = None →
     fhs_ w' !! tab_name = Some (Some (RmFH (cwd w ++ [tab_name])))) ∧
  DbMeta.name_ (db_ w') = DbMeta.name_ (db_ w) ∧
  ihs_ w' = ihs_ w.
Proof.
  intros Hrun.
  destruct (create_table_Ok_files _ _ _ _ _ Hrun) as (Hcwd & Hfiles).
  destruct (create_table_Ok _ _ _ _ _ Hrun) as (Hfresh & Hdb & Hfhs & Hihs).
  split; [| split; [| split; [| split; [| split]]]].
  - unfold meta_path. rewrite Hfiles, Hcwd. apply lookup_insert_eq.
  - intros Hname. rewrite Hfiles. unfold meta_path.
    rewrite lookup_insert_ne by (intros Heq; simplify_list_eq).
    apply lookup_insert_eq.
  - intros name Hname. rewrite Hdb, Hfhs. simpl.
    rewrite lookup_insert_ne by done. split; [done |].
    unfold emplace. destruct (fhs_ w !! tab_name); [done |]. by rewrite lookup_insert_ne.
  - intros Hnone. rewrite Hfhs. unfold emplace. rewrite Hnone. apply lookup_insert_eq.
  - by rewrite Hdb.
  - done.
Qed.

Lemma create_table_persists_schema_witness :
  files shop_with_orders !! meta_path quiet shop_with_orders
    = Some (MetaFile (db_ shop_with_orders)) ∧
  files shop_with_orders !! (cwd shop_opened ++ ["orders"])
    = Some (RecordFile (fold_left (add_col "orders") orders_cols (0, [])).1).
Proof.
  destruct (create_table_persists_schema quiet "orders" orders_cols shop_opened
              shop_with_orders) as (Hmeta & Hrecord & _).
  - vm_compute. reflexivity.
  - split; [exact Hmeta | apply Hrecord; discriminate].
Defined.

Lemma drop_table_index_files E tab_name index w u w' :
  drop_table_index E tab_name index w = Ok u w' →
  cwd w' = cwd w ∧
  files w' = delete (cwd w ++ [get_index_name_cols E tab_name (IndexMeta.cols index)]) (files w).
Proof.
  intros Hrun. unfold drop_table_index in Hrun. unfold_collaborators Hrun. inv_run. done.
Qed.

Lemma drop_table_loop_files E tab_name indexes w u w' :
  for_each indexes (drop_table_index E tab_name) w = Ok u w' →
  cwd w' = cwd w ∧
  files w' = foldl (λ m k, delete (cwd w ++ [k]) m) (files w)
               (table_index_names E tab_name (TabMeta.mk tab_name [] indexes)).
Proof.
  revert w. induction indexes as [|index rest IH]; intros w Hrun; simpl in Hrun; inv_run.
  - done.
  - apply IH in Hrun as (-> & ->).
    match goal with H : drop_table_index _ _ _ _ = Ok _ _ |- _ =>
      apply drop_table_index_files in H as (-> & ->) end.
    done.
Qed.

Lemma drop_table_Ok_files E tab_name w w' :
  drop_table E tab_name w = Ok tt w' →
  ∃ tab, DbMeta.tabs_ (db_ w) !! tab_name = Some tab ∧
    cwd w' = cwd w ∧
    files w' = foldl (λ m k, delete (cwd w ++ [k]) m) (delete (cwd w ++ [tab_name]) (files w))
                 (table_index_names E tab_name tab).
Proof.
  intros Hrun. unfold drop_table in Hrun. unfold_collaborators Hrun. inv_run.
  apply negb_false_iff, bool_decide_eq_true in Heqb as [tab Htab].
  find_loop ltac:(fun H => apply drop_table_loop_files in H as (Hcwd & Hfiles)).
  simpl in *. rewrite (subscript_fst_lookup _ _ _ _ Htab) in *. simpl in *.
  exists tab. by rewrite Hcwd, Hfiles.
Qed.

Lemma lookup_foldl_delete {K V} `{Countable K} (m : gmap K V) (f : string → K) l p :
  foldl (λ m k, delete (f k) m) m l !! p =
    if decide (p ∈ f <$> l) then None else m !! p.
Proof.
  revert m. induction l as [|k l IH]; intros m.
  - case_decide as Hin; [| done]. by apply elem_of_nil in Hin.
  - change (foldl (λ m k, delete (f k) m) m (k :: l))
      with (foldl (λ m k, delete (f k) m) (delete (f k) m) l).
    rewrite IH, fmap_cons. destruct (decide (p = f k)) as [-> | Hne].
    + rewrite (decide_True (P := f k ∈ f k :: _)) by apply list_elem_of_here.
      case_decide; [done | apply lookup_delete_eq].
    + rewrite lookup_delete_ne by done.
      case_decide as Hin; case_decide as Hin'; try done.
      * exfalso. apply Hin'. by apply list_elem_of_further.
      * exfalso. apply elem_of_cons in Hin' as [? | ?]; [done | by apply Hin].
Qed.

(** X8: a returning [drop_table] has erased the table from the schema, its
    handle from the registry and the handle of each of its indexes from the
    index registry, and has removed the record file and the index files from
    the database directory.  It writes no file: whatever is in a file
    afterwards was there before, the metadata file included.  Other tables
    and their record-file handles are untouched, and so is every index
    handle whose identity is not one of the table's. *)
Theorem drop_table_removes_table_and_indexes E tab_name w w' :
  drop_table E tab_name w = Ok tt w' →
  ∃ tab, DbMeta.tabs_ (db_ w) !! tab_name = Some tab ∧
    DbMeta.tabs_ (db_ w') = delete tab_name (DbMeta.tabs_ (db_ w)) ∧
    fhs_ w' = delete tab_name (fhs_ w) ∧
    (∀ index_name,
       ihs_ w' !! index_name =
         if decide (index_name ∈ table_index_names E tab_name tab) then None
         else ihs_ w !! index_name) ∧
    files w' !! (cwd w ++ [tab_name]) = None ∧
    (∀ index_name, index_name ∈ table_index_names E tab_name tab →
       files w' !! (cwd w ++ [index_name]) = None) ∧
    (∀ p f, files w' !! p = Some f → files w !! p = Some f).
Proof.
  intros Hrun.
  destruct (drop_table_Ok_files _ _ _ _ Hrun) as (tab & Htab & Hcwd & Hfiles).
  destruct (drop_table_Ok _ _ _ _ Hrun) as (tab' & Htab' & Hdb & Hfhs & Hihs).
  rewrite Htab in Htab'. injection Htab' as <-.
  exists tab. split; [done |]. split; [by rewrite Hdb |]. split; [done |].
  assert (Hlookup : ∀ p, files w' !! p =
            if decide (p ∈ (λ k, cwd w ++ [k]) <$> table_index_names E tab_name tab)
            then None else delete (cwd w ++ [tab_name]) (files w) !! p).
  { intros p. rewrite Hfiles. apply lookup_foldl_delete. }
  split; [| split; [| split]].
  - intros index_name. rewrite Hihs.
    rewrite (lookup_foldl_delete (ihs_ w) id). by rewrite list_fmap_id.
  - rewrite Hlookup. case_decide; [done | apply lookup_delete_eq].
  - intros index_name Hin. rewrite Hlookup.
    rewrite decide_True; [done |].
    by apply (list_elem_of_fmap_2 (λ k : string, cwd w ++ [k])).
  - intros p f. rewrite Hlookup. case_decide; [done |].
    intros Hp. by apply lookup_delete_Some in Hp as [_ Hp].
Qed.

Lemma drop_table_removes_table_and_indexes_witness :
  DbMeta.tabs_ (db_ shop_table_dropped) = delete "orders" (DbMeta.tabs_ (db_ shop_with_index)) ∧
  fhs_ shop_table_dropped = delete "orders" (fhs_ shop_with_index) ∧
  files shop_table_dropped !! (cwd shop_with_index ++ ["orders"]) = None ∧
  files shop_table_dropped !! (cwd shop_with_index ++ ["orders_id.idx"]) = None.
Proof.
  destruct (drop_table_removes_table_and_indexes quiet "orders" shop_with_index
              shop_table_dropped)
    as (tab & Htab & Htabs & Hfhs & _ & Hrecord & Hindex & _).
  - vm_compute. reflexivity.
  - split; [exact Htabs |]. split; [exact Hfhs |]. split; [exact Hrecord |].
    apply Hindex.
    assert (Htab' : DbMeta.tabs_ (db_ shop_with_index) !! "orders"
                    = Some (TabMeta.mk "orders" (layout "orders" 0 orders_cols)
                              [IndexMeta.mk "orders" 4 1
                                 [ColMeta.mk "orders" "id" 0 4 0 false]]))
      by (vm_compute; reflexivity).
    rewrite Htab in Htab'. injection Htab' as ->.
    apply (bool_decide_unpack _). vm_compute. exact I.
Defined.

(** ** [create_index] and [drop_index] *)

Lemma keeps_dirs_structural E op : structural op = true → keeps dirs (run_op E op).
Proof.
  intros Hop. destruct op; try discriminate Hop; simpl.
  - unfold create_table, rm_create_file, rm_open_file, flush_meta, ofstream_write.
    keeps_tac; intros w; unfold tabs_subscript; by destruct (subscript _ _ _).
  - unfold drop_table, drop_table_index, rm_close_file, rm_destroy_file,
      ix_close_index, ix_destroy_index_cols, ix_destroy_index.
    keeps_tac; intros w;
      unfold fhs_subscript, ihs_subscript, tabs_subscript; by destruct (subscript _ _ _).
  - unfold create_index, index_column, get_col, get_table, ix_exists, ix_create_index,
      ix_open_index.
    keeps_tac; intros w; first [ by destruct (_ !! _)
                               | unfold tabs_subscript; by destruct (subscript _ _ _) ].
  - unfold drop_index, get_index_meta, get_table, ix_close_index, ix_destroy_index.
    keeps_tac; intros w; first [ by destruct (_ !! _)
                               | unfold ihs_subscript; by destruct (subscript _ _ _) ].
  - unfold drop_index_cols, get_index_meta, get_table, ix_close_index,
      ix_destroy_index_cols, ix_destroy_index.
    keeps_tac; intros w; first [ by destruct (_ !! _)
                               | unfold ihs_subscript; by destruct (subscript _ _ _) ].
Qed.

Lemma index_column_resolves tab_name col_name w col w' tab :
  DbMeta.tabs_ (db_ w) !! tab_name = Some tab →
  index_column tab_name col_name w = Ok col w' →
  resolves_to tab col_name col.
Proof.
  intros Htab Hrun. unfold index_column in Hrun. inv_run.
  match goal with H : get_table _ _ = Ok _ _ |- _ => apply get_table_Ok in H as [Htab' ->] end.
  rewrite Htab in Htab'. injection Htab' as <-.
  unfold get_col in Hrun. unfold resolves_to.
  destruct (list_find _ _) as [[i c]|]; [| done].
  apply mret_Ok in Hrun as [-> _]. by exists i.
Qed.

Lemma collect_index_column_resolves tab_name col_names w cols w' tab :
  DbMeta.tabs_ (db_ w) !! tab_name = Some tab →
  collect col_names (index_column tab_name) w = Ok cols w' →
  Forall2 (resolves_to tab) col_names cols.
Proof.
  intros Htab. revert cols.
  induction col_names as [|col_name rest IH]; intros cols Hrun; simpl in Hrun; inv_run.
  - constructor.
  - match goal with H : index_column _ _ _ = Ok _ _ |- _ =>
      pose proof (index_column_resolves _ _ _ _ _ _ Htab H) as Hcol;
      apply index_column_Ok in H as (_ & _ & ->) end.
    constructor; [done | by apply IH].
Qed.

Lemma fold_add_len_exact cols tab_name tot num cs :
  (∀ n, in_int_range (tot + key_len (take n cols))) →
  fold_left add_len cols (IndexMeta.mk tab_name tot num cs)
    = IndexMeta.mk tab_name (tot + key_len cols) num cs.
Proof.
  revert tot. induction cols as [|c cols IH]; intros tot Hrange; simpl.
  - by rewrite Z.add_0_r.
  - unfold add_len at 2. simpl. unfold int_add. rewrite wrap_int_in_range.
    + rewrite IH; [by rewrite Z.add_assoc |].
      intros n. specialize (Hrange (S n)). simpl in Hrange. by rewrite <- Z.add_assoc.
    + specialize (Hrange 1%nat). simpl in Hrange. by rewrite Z.add_0_r in Hrange.
Qed.

Lemma create_index_Ok_full E tab_name col_names w w' :
  create_index E tab_name col_names w = Ok tt w' →
  ∃ cols,
    collect col_names (index_column tab_name) w = Ok cols w ∧
    names_of cols = col_names ∧
    db_ w' = DbMeta.mk (DbMeta.name_ (db_ w))
               (<[tab_name := push_back_index
                    (fold_left add_len cols
                       (IndexMeta.mk tab_name 0 (wrap_int (Z.of_nat (length cols))) cols))
                    (subscript default_TabMeta tab_name (DbMeta.tabs_ (db_ w))).1]>
                  (DbMeta.tabs_ (db_ w))) ∧
    fhs_ w' = fhs_ w ∧
    ihs_ w' = emplace (get_index_name E tab_name col_names)
                (Some (IxIH (cwd w ++ [get_index_name E tab_name col_names]))) (ihs_ w) ∧
    cwd w' = cwd w ∧
    files w !! (cwd w ++ [get_index_name E tab_name col_names]) = None ∧
    files w' = <[cwd w ++ [get_index_name E tab_name col_names] := IndexFile cols]> (files w).
Proof.
  intros Hrun. unfold create_index in Hrun. unfold_collaborators Hrun. inv_run.
  match goal with H : collect _ _ _ = Ok _ _ |- _ =>
    pose proof H as Hcollect; apply collect_index_column in H as (Hnames & -> & _) end.
  apply bool_decide_eq_false in Heqb.
  eexists. split; [exact Hcollect |]. split; [done |]. simpl.
  rewrite insert_subscript. unfold get_index_name_cols. rewrite Hnames.
  repeat split; try done. by apply eq_None_not_Some.
Qed.

(** X9: the IndexMeta a returning [create_index] appends to the table lists
    the columns that the names resolve to, in the order of the names; its
    column count is the number of names and, as long as the running totals
    fit an [int], its key length is the sum of the lengths of those columns.
    The index file holds the same columns, and the index is registered under
    its identity with a handle on that file unless an entry was already
    there. *)
Theorem create_index_records_key_layout E tab_name col_names w w' tab :
  DbMeta.tabs_ (db_ w) !! tab_name = Some tab →
  create_index E tab_name col_names w = Ok tt w' →
  ∃ cols,
    Forall2 (resolves_to tab) col_names cols ∧
    files w' !! (cwd w ++ [get_index_name E tab_name col_names]) = Some (IndexFile cols) ∧
    (ihs_ w !! get_index_name E tab_name col_names = None →
     ihs_ w' !! get_index_name E tab_name col_names
       = Some (Some (IxIH (cwd w ++ [get_index_name E tab_name col_names])))) ∧
    ((∀ n, in_int_range (key_len (take n cols))) →
     in_int_range (Z.of_nat (length col_names)) →
     DbMeta.tabs_ (db_ w') !! tab_name =
       Some (push_back_index
               (IndexMeta.mk tab_name (key_len cols) (Z.of_nat (length col_names)) cols) tab)).
Proof.
  intros Htab Hrun.
  destruct (create_index_Ok_full _ _ _ _ _ Hrun)
    as (cols & Hcollect & Hnames & Hdb & _ & Hihs & _ & _ & Hfiles).
  exists cols. split; [by eapply collect_index_column_resolves |].
  split; [rewrite Hfiles; apply lookup_insert_eq |]. split.
  - intros Hnone. rewrite Hihs. unfold emplace. rewrite Hnone. apply lookup_insert_eq.
  - intros Hrange Hcount. rewrite Hdb. simpl. rewrite lookup_insert_eq.
    rewrite (subscript_fst_lookup _ _ _ _ Htab). simpl.
    rewrite (fold_add_len_exact cols tab_name 0) by done.
    assert (Hlen : length cols = length col_names).
    { rewrite <- Hnames. unfold names_of. by rewrite length_fmap. }
    rewrite Hlen, wrap_int_in_range by done. done.
Qed.

Lemma delete_length_snoc {A} (l : list A) x : delete (length l) (l ++ [x]) = l.
Proof. induction l as [|y l IH]; simpl; [done | by f_equal]. Qed.

Lemma drop_index_Ok_files E tab_name col_names w w' :
  drop_index E tab_name col_names w = Ok tt w' →
  cwd w' = cwd w ∧
  files w' = delete (cwd w ++ [get_index_name E tab_name col_names]) (files w).
Proof.
  intros Hrun. unfold drop_index in Hrun. unfold_collaborators Hrun. inv_run.
  repeat match goal with
  | H : get_table _ _ = Ok _ _ |- _ => apply get_table_Ok in H as [? ->]
  | H : get_index_meta _ _ _ = Ok _ _ |- _ => apply get_index_meta_Ok in H as [_ ->]
  end.
  done.
Qed.

(** X10: on a table of the schema that has no index on these columns, and with
    no handle registered under the identity, a returning [create_index]
    followed by a returning [drop_index] on the same columns gives back the
    schema, both registries, the files and the working directory. *)
Theorem create_then_drop_index_restores E tab_name col_names w w' tab :
  DbMeta.tabs_ (db_ w) !! tab_name = Some tab →
  no_index_on tab col_names →
  ihs_ w !! get_index_name E tab_name col_names = None →
  (create_index E tab_name col_names ;; drop_index E tab_name col_names) w = Ok tt w' →
  db_ w' = db_ w ∧ fhs_ w' = fhs_ w ∧ ihs_ w' = ihs_ w ∧
  files w' = files w ∧ cwd w' = cwd w ∧ dirs w' = dirs w.
Proof.
  intros Htab Hnone Hkey Hrun. inv_run.
  match goal with H : create_index _ _ _ _ = Ok _ _ |- _ =>
    destruct a;
    pose proof (keeps_dirs_structural E (CreateIndex tab_name col_names) eq_refl w) as Hd1;
    simpl in Hd1; rewrite H in Hd1; simpl in Hd1;
    apply create_index_Ok_full in H
      as (cols & _ & Hnames & Hdb1 & Hfhs1 & Hihs1 & Hcwd1 & Hnofile & Hfiles1) end.
  pose proof (keeps_dirs_structural E (DropIndex tab_name col_names) eq_refl w0) as Hd2.
  simpl in Hd2. rewrite Hrun in Hd2. simpl in Hd2.
  destruct (drop_index_Ok_files _ _ _ _ _ Hrun) as (Hcwd2 & Hfiles2).
  apply drop_index_Ok in Hrun
    as (tab1 & pos & index & Htab1 & Hpos & Hmatch & Hdb2 & Hfhs2 & Hihs2).
  rewrite Hdb1 in Htab1, Hdb2. simpl in Htab1, Hdb2.
  rewrite lookup_insert_eq, (subscript_fst_lookup _ _ _ _ Htab) in Htab1.
  simpl in Htab1. injection Htab1 as <-.
  assert (Hlast : pos = length (TabMeta.indexes tab)).
  { simpl in Hpos. apply lookup_app_Some in Hpos as [Hold | [Hge Hnew]].
    - unfold no_index_on in Hnone. apply list_find_None in Hnone.
      rewrite Forall_forall in Hnone.
      destruct (Hnone index); [by eapply list_elem_of_lookup_2 | done].
    - apply list_lookup_singleton_Some in Hnew as [Hzero _]. lia. }
  rewrite Hdb2, Hfhs2, Hihs2, Hfiles2, Hcwd2, Hfhs1, Hihs1, Hfiles1, Hcwd1, Hd2, Hd1.
  unfold emplace. rewrite Hkey.
  rewrite !delete_insert_id by done.
  rewrite insert_insert_eq. unfold erase_index. simpl.
  rewrite Hlast.
  rewrite delete_length_snoc, insert_id.
  - by destruct (db_ w).
  - rewrite Htab. by destruct tab.
Qed.

Lemma create_index_records_key_layout_witness :
  ∃ cols,
    Forall2 (resolves_to (TabMeta.mk "orders" (layout "orders" 0 orders_cols) [])) ["id"] cols ∧
    DbMeta.tabs_ (db_ shop_with_index) !! "orders" =
      Some (push_back_index
              (IndexMeta.mk "orders" (key_len cols) (Z.of_nat (length ["id"])) cols)
              (TabMeta.mk "orders" (layout "orders" 0 orders_cols) [])) ∧
    key_len cols = 4.
Proof.
  destruct (create_index_records_key_layout quiet "orders" ["id"] shop_with_orders
              shop_with_index (TabMeta.mk "orders" (layout "orders" 0 orders_cols) []))
    as (cols & Hcols & _ & _ & Hmeta).
  - vm_compute. reflexivity.
  - vm_compute. reflexivity.
  - assert (Hid : cols = [ColMeta.mk "orders" "id" 0 4 0 false]).
    { inversion Hcols as [|name col names cols' [i Hfind] Hrest]; subst.
      inversion Hrest; subst. vm_compute in Hfind. by injection Hfind as _ <-. }
    exists cols. split; [exact Hcols |]. split; [| by rewrite Hid].
    apply Hmeta.
    + rewrite Hid. intros [|[|n]]; vm_compute; split; discriminate.
    + vm_compute. split; discriminate.
Defined.

Lemma create_then_drop_index_restores_witness :
  db_ shop_index_dropped = db_ shop_with_orders ∧
  ihs_ shop_index_dropped = ihs_ shop_with_orders ∧
  files shop_index_dropped = files shop_with_orders.
Proof.
  destruct (create_then_drop_index_restores quiet "orders" ["id"] shop_with_orders
              shop_index_dropped (TabMeta.mk "orders" (layout "orders" 0 orders_cols) []))
    as (Hdb & _ & Hihs & Hfiles & _).
  - vm_compute. reflexivity.
  - vm_compute. reflexivity.
  - vm_compute. reflexivity.
  - vm_compute. reflexivity.
  - split; [exact Hdb |]. split; [exact Hihs | exact Hfiles].
Defined.

(** ** Requests that fail before they do anything *)

Lemma collect_unresolved_column tab_name tab pre col_name post w :
  DbMeta.tabs_ (db_ w) !! tab_name = Some tab →
  Forall (λ name, name ∈ names_of (TabMeta.cols tab)) pre →
  col_name ∉ names_of (TabMeta.cols tab) →
  collect (pre ++ col_name :: post) (index_column tab_name) w
    = Throw (ColumnNotFoundError col_name) w.
Proof.
  intros Htab Hpre Hmissing.
  assert (Hfound : ∀ name, name ∈ names_of (TabMeta.cols tab) →
            ∃ col, index_column tab_name name w = Ok col w).
  { intros name Hin. unfold index_column, get_table, get_col, mbind, M_bind.
    rewrite Htab.
    destruct (list_find (λ c, ColMeta.name c = name) (TabMeta.cols tab))
      as [[i col]|] eqn:Hfind; [by eexists |].
    apply list_find_None in Hfind. rewrite Forall_forall in Hfind.
    apply list_elem_of_fmap in Hin as (col & -> & Hcol). by destruct (Hfind col Hcol). }
  induction Hpre as [|name pre Hname _ IH]; simpl.
  - unfold mbind at 1, M_bind at 1.
    unfold index_column, get_table, get_col, mbind, M_bind. rewrite Htab.
    destruct (list_find (λ c, ColMeta.name c = col_name) (TabMeta.cols tab))
      as [[i col]|] eqn:Hfind; [| done].
    apply list_find_Some in Hfind as (Hcol & Heq & _). exfalso. apply Hmissing.
    apply list_elem_of_fmap. exists col. split; [done | by eapply list_elem_of_lookup_2].
  - destruct (Hfound name Hname) as (col & Hcol).
    rewrite (bind_run _ _ _ _ _ Hcol).
    by rewrite (bind_throw _ _ _ _ _ IH).
Qed.

(** X11: [create_index] resolves every column name before it touches anything:
    on a table that is not in the schema, or with a name that is not a
    column of the table, it throws TableNotFoundError, or ColumnNotFoundError
    for the first such name, and nothing has changed: no call to the index
    store, no handle, no IndexMeta. *)
Theorem create_index_unresolved_changes_nothing E tab_name col_names w :
  files w !! (cwd w ++ [get_index_name E tab_name col_names]) = None →
  (col_names ≠ [] → DbMeta.tabs_ (db_ w) !! tab_name = None →
   create_index E tab_name col_names w = Throw (TableNotFoundError tab_name) w) ∧
  (∀ tab pre col_name post,
     DbMeta.tabs_ (db_ w) !! tab_name = Some tab →
     col_names = pre ++ col_name :: post →
     Forall (λ name, name ∈ names_of (TabMeta.cols tab)) pre →
     col_name ∉ names_of (TabMeta.cols tab) →
     create_index E tab_name col_names w = Throw (ColumnNotFoundError col_name) w).
Proof.
  intros Hnofile.
  assert (Hexists : ix_exists E tab_name col_names w = Ok false w).
  { unfold ix_exists, gets. f_equal. apply bool_decide_eq_false_2.
    rewrite Hnofile. by intros ?%is_Some_None. }
  split.
  - intros Hnames Htab. unfold create_index.
    rewrite (bind_run _ _ _ _ _ Hexists). apply bind_throw.
    destruct col_names as [|col_name rest]; [done |]. simpl.
    apply bind_throw. unfold index_column. apply bind_throw.
    unfold get_table. by rewrite Htab.
  - intros tab pre col_name post Htab -> Hpre Hmissing. unfold create_index.
    rewrite (bind_run _ _ _ _ _ Hexists). apply bind_throw.
    by apply collect_unresolved_column with (tab := tab).
Qed.

Lemma create_index_unresolved_changes_nothing_witness :
  create_index quiet "ghost" ["id"] shop_with_orders
    = Throw (TableNotFoundError "ghost") shop_with_orders ∧
  create_index quiet "orders" ["id"; "price"; "total"] shop_with_orders
    = Throw (ColumnNotFoundError "price") shop_with_orders.
Proof.
  split.
  - apply (create_index_unresolved_changes_nothing quiet "ghost" ["id"] shop_with_orders);
      [vm_compute; reflexivity | discriminate | vm_compute; reflexivity].
  - apply (create_index_unresolved_changes_nothing quiet "orders" ["id"; "price"; "total"]
             shop_with_orders)
      with (tab := TabMeta.mk "orders" (layout "orders" 0 orders_cols) [])
           (pre := ["id"]) (post := ["total"]).
    + vm_compute. reflexivity.
    + vm_compute. reflexivity.
    + reflexivity.
    + repeat constructor.
    + apply (bool_decide_unpack _). vm_compute. exact I.
Defined.

(** X12: the existence checks come first: a request that fails one of them
    throws the typed error and leaves the world exactly as it was, without a
    call to a store or to the shell ([drop_db]: for a plain name). *)
Theorem failed_existence_checks_change_nothing E w :
  (∀ db_name, resolve (cwd w) db_name ∈ dirs w →
     create_db E db_name w = Throw (DatabaseExistsError db_name) w) ∧
  (∀ db_name, plain_component db_name = true → resolve (cwd w) db_name ∉ dirs w →
     drop_db E db_name w = Throw (DatabaseNotFoundError db_name) w) ∧
  (∀ tab_name col_defs, is_Some (DbMeta.tabs_ (db_ w) !! tab_name) →
     create_table E tab_name col_defs w = Throw (TableExistsError tab_name) w) ∧
  (∀ tab_name, DbMeta.tabs_ (db_ w) !! tab_name = None →
     drop_table E tab_name w = Throw (TableNotFoundError tab_name) w ∧
     desc_table E tab_name w = Throw (TableNotFoundError tab_name) w) ∧
  (∀ tab_name col_names,
     is_Some (files w !! (cwd w ++ [get_index_name E tab_name col_names])) →
     create_index E tab_name col_names w = Throw (IndexExistsError tab_name col_names) w).
Proof.
  split; [| split; [| split; [| split]]].
  - intros db_name Hdir. unfold create_db, is_dir, mbind, M_bind, gets.
    by rewrite bool_decide_eq_true_2.
  - intros db_name _ Hdir. unfold drop_db, is_dir, mbind, M_bind, gets.
    by rewrite bool_decide_eq_false_2.
  - intros tab_name col_defs Htab. unfold create_table, is_table, mbind, M_bind, gets.
    by rewrite bool_decide_eq_true_2.
  - intros tab_name Htab. split.
    + unfold drop_table, is_table, mbind, M_bind, gets.
      rewrite bool_decide_eq_false_2; [done |]. rewrite Htab. by intros ?%is_Some_None.
    + unfold desc_table, get_table, mbind, M_bind. by rewrite Htab.
  - intros tab_name col_names Hfile. unfold create_index, ix_exists, mbind, M_bind, gets.
    by rewrite bool_decide_eq_true_2.
Qed.

Lemma failed_existence_checks_change_nothing_witness :
  create_table quiet "orders" [] shop_with_orders
    = Throw (TableExistsError "orders") shop_with_orders ∧
  drop_table quiet "ghost" shop_with_orders
    = Throw (TableNotFoundError "ghost") shop_with_orders ∧
  drop_db quiet "nodb" shop_with_orders
    = Throw (DatabaseNotFoundError "nodb") shop_with_orders.
Proof.
  destruct (failed_existence_checks_change_nothing quiet shop_with_orders)
    as (_ & Hdropdb & Hcreate & Hdrop & _).
  split; [| split].
  - apply Hcreate. eexists. vm_compute. reflexivity.
  - apply Hdrop. vm_compute. reflexivity.
  - apply Hdropdb; [reflexivity |].
    apply (bool_decide_unpack _). vm_compute. exact I.
Defined.

(** ** [open_db] on well-formed metadata *)




(** ** [show_tables] and the output file *)

Lemma output_lines_append line w :
  output_lines (set_files <[cwd w ++ ["output.txt"] :=
                              TextFile (output_lines w ++ [line])]> w)
  = output_lines w ++ [line].
Proof. unfold output_lines at 1. simpl. by rewrite lookup_insert_eq. Qed.

Lemma fstream_append_output line w :
  fstream_append "output.txt" line w =
  Ok tt (set_files <[cwd w ++ ["output.txt"] := TextFile (output_lines w ++ [line])]> w).
Proof. reflexivity. Qed.

Lemma show_tables_entry_loop l w :
  ∃ w', for_each l show_tables_entry w = Ok tt w' ∧
        output_lines w' = output_lines w ++ (table_line <$> l) ∧
        cwd w' = cwd w ∧ dirs w' = dirs w ∧ manager_state w' = manager_state w ∧
        ∀ p, p ≠ cwd w ++ ["output.txt"] → files w' !! p = files w !! p.
Proof.
  revert w. induction l as [|entry rest IH]; intros w.
  - exists w. simpl. by rewrite app_nil_r.
  - set (w1 := set_files <[cwd w ++ ["output.txt"] :=
                             TextFile (output_lines w ++ [table_line entry])]>
                 (log (PrintRecord [TabMeta.name entry.2]) w)).
    destruct (IH w1) as (w' & Hrun & Hout & Hcwd & Hdirs & Hstate & Hfiles).
    exists w'. split; [| split; [| split; [| split; [| split]]]].
    + simpl. erewrite bind_run; [exact Hrun |]. reflexivity.
    + assert (Hout1 : output_lines w1 = output_lines w ++ [table_line entry])
        by apply (output_lines_append _ (log (PrintRecord [TabMeta.name entry.2]) w)).
      rewrite Hout, Hout1. simpl. by rewrite <- (assoc_L (++)).
    + by rewrite Hcwd.
    + by rewrite Hdirs.
    + by rewrite Hstate.
    + intros p Hp. rewrite (Hfiles p Hp). unfold w1. simpl.
      by rewrite lookup_insert_ne.
Qed.

(** X14: [show_tables] never throws and never truncates: it appends to
    [output.txt] in the current directory the heading line and then one line
    per table of the schema, in the order of the table keys, each showing the
    name stored in the table's TabMeta; every other file, the directories and
    the manager's schema and registries stay as they were. *)
Theorem show_tables_appends_listing w :
  ∃ w', show_tables w = Ok tt w' ∧
        output_lines w' = output_lines w ++ "| Tables |" ::
                            (table_line <$> in_key_order (DbMeta.tabs_ (db_ w))) ∧
        cwd w' = cwd w ∧ dirs w' = dirs w ∧ manager_state w' = manager_state w ∧
        ∀ p, p ≠ cwd w ++ ["output.txt"] → files w' !! p = files w !! p.
Proof.
  set (w1 := log PrintSeparator (log (PrintRecord ["Tables"]) (log PrintSeparator
               (set_files <[cwd w ++ ["output.txt"] :=
                              TextFile (output_lines w ++ ["| Tables |"])]> w)))).
  destruct (show_tables_entry_loop (in_key_order (DbMeta.tabs_ (db_ w))) w1)
    as (w' & Hrun & Hout & Hcwd & Hdirs & Hstate & Hfiles).
  exists (log PrintSeparator w'). split; [| split; [| split; [| split; [| split]]]].
  - unfold show_tables.
    erewrite bind_run; [| reflexivity]. erewrite bind_run; [| reflexivity].
    erewrite bind_run; [| reflexivity]. erewrite bind_run; [| reflexivity].
    erewrite bind_run; [| reflexivity].
    erewrite bind_run; [reflexivity | exact Hrun].
  - assert (Hout1 : output_lines w1 = output_lines w ++ ["| Tables |"])
      by apply (output_lines_append _ w).
    change (output_lines (log PrintSeparator w')) with (output_lines w').
    rewrite Hout, Hout1. by rewrite <- (assoc_L (++)).
  - simpl. by rewrite Hcwd.
  - simpl. by rewrite Hdirs.
  - change (manager_state (log PrintSeparator w')) with (manager_state w').
    by rewrite Hstate.
  - intros p Hp. simpl. rewrite (Hfiles p Hp). unfold w1. simpl.
    by rewrite lookup_insert_ne.
Qed.

(** ** [create_db] undone by [drop_db] *)

(** X15: [drop_db] undoes [create_db]: for a plain name at or below which
    nothing lies in the current directory, a returning [create_db] followed
    by [drop_db] of the same name, with a shell that runs the removal, leaves the
    directories, the files, the current directory and the manager's schema
    and registries as they were before the database was created. *)
Theorem create_db_then_drop_db E db_name w w1 :
  plain_component db_name = true →
  nothing_under db_name w →
  create_db E db_name w = Ok tt w1 →
  refuses E w1 (System ("rm -r " +:+ db_name)) = false →
  ∃ w2, drop_db E db_name w1 = Ok tt w2 ∧
        dirs w2 = dirs w ∧ files w2 = files w ∧ cwd w2 = cwd w ∧
        manager_state w2 = manager_state w.
Proof.
  intros Hname Hfree Hrun Hshell. apply plain_component_not_parent in Hname.
  destruct (create_db_makes_database_facts E db_name w w1 Hname Hrun) as [_ ->].
  set (w1 := created_db E db_name w) in *.
  assert (Hcwd1 : cwd w1 = cwd w) by reflexivity.
  assert (Htarget : resolve (cwd w1) db_name = cwd w ++ [db_name]).
  { by rewrite (resolve_plain _ _ Hname), Hcwd1. }
  exists (rm_r_effect db_name (log (System ("rm -r " +:+ db_name)) w1)).
  split; [| split; [| split; [| split]]].
  - unfold drop_db, is_dir.
    erewrite bind_run; [| reflexivity].
    rewrite bool_decide_eq_true_2.
    2:{ rewrite Htarget. unfold w1. simpl. apply elem_of_union_l.
        by apply elem_of_singleton. }
    simpl. erewrite bind_run; [| unfold system; rewrite Hshell; reflexivity].
    reflexivity.
  - unfold rm_r_effect. simpl. rewrite (resolve_plain _ _ Hname).
    apply set_eq. intros p. rewrite elem_of_filter, elem_of_union, elem_of_singleton.
    split.
    + intros [Hout [-> | Hin]]; [by destruct Hout | done].
    + intros Hin. split; [| by right].
      intros Hpre. by destruct (Hfree p Hpre).
  - unfold rm_r_effect. simpl. rewrite (resolve_plain _ _ Hname).
    rewrite map_filter_insert_not.
    2:{ intros y Hout. apply Hout. simpl. exists [LOG_FILE_NAME E].
        by rewrite <- (assoc_L (++)). }
    rewrite map_filter_insert_not.
    2:{ intros y Hout. apply Hout. simpl. by exists [DB_META_NAME E]. }
    apply map_filter_id. intros p x Hp Hpre. simpl in Hpre.
    destruct (Hfree p Hpre) as [_ Hnone]. by rewrite Hnone in Hp.
  - reflexivity.
  - reflexivity.
Qed.

Lemma create_db_then_drop_db_witness :
  ∃ w2, drop_db quiet "shop" (created_db quiet "shop" fresh) = Ok tt w2 ∧
        dirs w2 = dirs fresh ∧ files w2 = files fresh ∧ cwd w2 = cwd fresh ∧
        manager_state w2 = manager_state fresh.
Proof.
  apply (create_db_then_drop_db quiet "shop" fresh (created_db quiet "shop" fresh)).
  - reflexivity.
  - intros p [k ->]. split; [| reflexivity].
    intros Hin. change (dirs fresh) with ({[ [] ]} : gset Path) in Hin.
    apply elem_of_singleton in Hin. discriminate Hin.
  - vm_compute. reflexivity.
  - reflexivity.
Defined.
